(** * Text-Processing-Application: the pattern explainer, the live
    highlighter, replace-in-editor and the saved-pattern loader of
    [txt.py], embedded in Rocq.

  Python strings are modelled by [string]; one [ascii] stands for one
  character, so the alphabet of the model is the code points below 256.
  Offsets and lengths are [nat], as Python's indices into a [str] are. *)

From Stdlib Require Import String Ascii List Arith Bool Lia PeanoNat.
From Stdlib Require Import Strings.Byte NArith DecimalString.
From Equations Require Import Equations.
Import ListNotations.

Set Implicit Arguments.

Open Scope list_scope.
Open Scope string_scope.

(** ** Python string primitives *)

Module PyStr.

(** [s[a:b]] for non-negative [a], [b]: out-of-range bounds are clamped
    and [b <= a] gives the empty string. *)
Definition slice (a b : nat) (s : string) : string := substring a (b - a) s.

(** [s[a:]]. *)
Fixpoint slice_from (a : nat) (s : string) : string :=
  match a, s with
  | 0, _ => s
  | S a', String _ s' => slice_from a' s'
  | S _, EmptyString => EmptyString
  end.

(** [s[i]] as a one-character string, for [i < len(s)]. *)
Definition char_at (s : string) (i : nat) : string := substring i 1 s.

(** [c in chars] for a one-character [c]. *)
Fixpoint in_chars (c : string) (chars : string) : bool :=
  match chars with
  | EmptyString => false
  | String x rest => (c =? String x EmptyString) || in_chars c rest
  end.

(** [s.startswith(w)]. *)
Fixpoint starts_with (w s : string) : bool :=
match w with
| EmptyString => true
| String a w' =>
    match s with
    | String b s' => Ascii.eqb a b && starts_with w' s'
    | EmptyString => false
    end
end.

(** A [dict] with string keys, in insertion order. *)
Definition dict := list (string * string).

Fixpoint dict_get (d : dict) (key : string) : option string :=
  match d with
  | [] => None
  | (k, v) :: rest => if key =? k then Some v else dict_get rest key
  end.

(** [key in d]. *)
Definition dict_mem (d : dict) (key : string) : bool :=
  match dict_get d key with Some _ => true | None => false end.

(** [d[key]] on a key that is present (the only use in [txt.py]). *)
Definition dict_index (d : dict) (key : string) : string :=
  match dict_get d key with Some v => v | None => EmptyString end.

End PyStr.

(** ** The pattern explainer ([explain_regex], txt.py lines 30-135) *)

Module Explainer.
Import PyStr.

Definition token_map : dict :=
  [ (".", "**Any Character** (`.`): Matches any single character except a newline (unless DOTALL flag is used).");
    ("^", "**Start of String/Line** (`^`): Asserts the position at the start of the string (or the start of a line in MULTILINE mode).");
    ("$", "**End of String/Line** (`$`): Asserts the position at the end of the string (or the end of a line in MULTILINE mode).");
    ("\d", "**Digit** (`\d`): Matches any digit from 0 to 9.");
    ("\D", "**Not a Digit** (`\D`): Matches any character that is not a digit.");
    ("\w", "**Word Character** (`\w`): Matches any letter (a-z, A-Z), digit (0-9), or underscore (_).");
    ("\W", "**Not a Word Character** (`\W`): Matches any character that is not a letter, digit, or underscore.");
    ("\s", "**Whitespace** (`\s`): Matches any whitespace character (like space, tab, newline).");
    ("\S", "**Not Whitespace** (`\S`): Matches any character that is not whitespace.");
    ("\b", "**Word Boundary** (`\b`): Asserts a position at a word boundary (e.g., between a letter and a space).");
    ("\B", "**Not a Word Boundary** (`\B`): Asserts a position that is not a word boundary.") ].

Definition quantifier_map : dict :=
  [ ("*", "**Zero or More** (`*`): The preceding element can occur 0 or more times.");
    ("+", "**One or More** (`+`): The preceding element must occur 1 or more times.");
    ("?", "**Zero or One** (`?`): The preceding element can occur 0 or 1 time. It also makes a quantifier 'non-greedy'.") ].

(** *** The brace pattern [\{(\d+)(,)?(\d+)?\}] of line 80 *)

(** [\d] on the characters below code point 256, where the decimal digits
    are '0'..'9'.  [UExplainer] is the explainer on all code points, and
    [explainer_restriction] shows that this module is its restriction to
    the patterns written below code point 256. *)
Definition is_digit (c : ascii) : bool :=
  let n := nat_of_ascii c in ((48 <=? n) && (n <=? 57))%nat.

(** The greedy [\d*]: the longest run of digits and what follows it. *)
Fixpoint take_digits (s : string) : string * string :=
  match s with
  | String c rest =>
      if is_digit c
      then let (ds, tl) := take_digits rest in (String c ds, tl)
      else (EmptyString, s)
  | EmptyString => (EmptyString, EmptyString)
  end.

(** The result of [re.match] on the brace pattern: [group(0)] and
    [groups()], where an unmatched optional group is [None]. *)
Record brace_match := {
  group0 : string;
  g1 : string;
  g2 : option string;
  g3 : option string
}.

Definition opt_str (o : option string) : string :=
  match o with Some s => s | None => EmptyString end.

(** [re.match] of the brace pattern at the head of [s]. Each run of
    digits is taken greedily; where this reading fails no other split of
    the digits succeeds, since what follows a shorter run is a digit or
    the character that already failed. *)
Definition match_brace (s : string) : option brace_match :=
  match s with
  | String "{"%char r0 =>
      let (d1, r1) := take_digits r0 in
      if d1 =? EmptyString then None
      else
        let (c2, r2) :=
          match r1 with
          | String ","%char r => (Some ",", r)
          | _ => (None, r1)
          end in
        let (d3, r3) := take_digits r2 in
        let c3 := if d3 =? EmptyString then None else Some d3 in
        match r3 with
        | String "}"%char _ =>
            Some {| group0 := "{" ++ d1 ++ opt_str c2 ++ opt_str c3 ++ "}";
                    g1 := d1; g2 := c2; g3 := c3 |}
        | _ => None
        end
  | _ => None
  end.

(** Lines 84-89. *)
Definition brace_desc (m : brace_match) : string :=
  match g2 m, g3 m with
  | None, None => "exactly " ++ g1 m ++ " times"
  | _, None => "at least " ++ g1 m ++ " times"
  | _, Some n => "between " ++ g1 m ++ " and " ++ n ++ " times"
  end.

Definition literal_desc (char : string) : string :=
  "- **Literal Character** (`" ++ char ++ "`): Matches the character '"
    ++ char ++ "' literally.".

Definition escaped_literal_desc (token next : string) : string :=
  "- **Literal Character** (`" ++ token ++ "`): Matches the character '"
    ++ next ++ "' literally.".

Definition quantifier_desc (m : brace_match) : string :=
  "- **Quantifier** (`" ++ group0 m ++ "`): The preceding element must occur "
    ++ brace_desc m ++ ".".

Definition capturing_desc : string :=
  "**Capturing Group** (`(`...`)`): Groups multiple tokens together and creates a capture group to extract the matched substring.".
Definition non_capturing_desc : string :=
  "**Non-Capturing Group** (`(?:`...`)`): Groups tokens together without creating a capture group.".
Definition lookaround_desc : string :=
  "- **Lookaround/Conditional** (`(?`...`)`): A special group that asserts a condition (e.g., lookahead, lookbehind) without consuming characters.".
Definition end_group_desc : string :=
  "- **End Group** (`)`): Closes the current group.".
Definition alternation_desc : string :=
  "- **Alternation / OR** (`|`): Acts like a boolean OR, matching the expression before or after it.".
Definition set_desc : string :=
  "**Character Set** (`[`...`]`) : Matches any single character from the set.".
Definition negated_set_desc : string :=
  "**Negated Character Set** (`[^`...`]`) : Matches any single character *not* in the set.".
Definition end_set_desc : string :=
  "- **End Character Set** (`]`): Closes the character set.".
Definition empty_desc : string :=
  "- This pattern appears to be empty or contains no standard regex tokens to explain.".

(** *** One iteration of the [while] loop (lines 49-130)

    For a cursor [i < len(pattern)] the body appends exactly one
    description and moves the cursor; [explain_step] returns both. *)

(** Lines 94-130: the branches after the brace quantifier. *)
Definition explain_rest (pattern : string) (i : nat) (char : string)
  : string * nat :=
  if char =? "(" then
    if slice i (i + 3) pattern =? "(?:" then
      ("- " ++ non_capturing_desc, i + 2 + 1)
    else if slice i (i + 2) pattern =? "(?" then
      (lookaround_desc, i + 1)
    else ("- " ++ capturing_desc, i + 1)
  else if char =? ")" then (end_group_desc, i + 1)
  else if char =? "|" then (alternation_desc, i + 1)
  else if char =? "[" then
    if slice (i + 1) (i + 2) pattern =? "^" then
      ("- " ++ negated_set_desc, i + 1 + 1)
    else ("- " ++ set_desc, i + 1)
  else if char =? "]" then (end_set_desc, i + 1)
  else (literal_desc char, i + 1).

(** Lines 64-92, entered with [token = char]. *)
Definition explain_single (pattern : string) (i : nat) (char : string)
  : string * nat :=
  let token := char in
  if dict_mem token_map token then
    ("- " ++ dict_index token_map token, i + 1)
  else if in_chars char "*+?" then
    ("- " ++ dict_index quantifier_map char, i + 1)
  else
    match (if char =? "{" then match_brace (slice_from i pattern) else None) with
    | Some m => (quantifier_desc m, i + String.length (group0 m))
    | None => explain_rest pattern i char
    end.

Definition explain_step (pattern : string) (i : nat) : string * nat :=
  let char := char_at pattern i in
  if (char =? "\") && (i + 1 <? String.length pattern)%nat then
    let token := slice i (i + 2) pattern in
    if dict_mem token_map token then
      ("- " ++ dict_index token_map token, i + 2)
    else
      (escaped_literal_desc token (char_at pattern (i + 1)), i + 2)
  else explain_single pattern i char.

(** *** The loop (lines 47-48) and the result (lines 132-135)

    The cursor moves forward in every iteration, so the distance to the
    end of the pattern is a measure for the recursion. *)

Equations? explain_loop (pattern : string) (i : nat) (explanation : list string)
  : list string by wf (String.length pattern - i) lt :=
  explain_loop pattern i explanation with lt_dec i (String.length pattern) := {
    | left _ =>
        explain_loop pattern (snd (explain_step pattern i))
          (explanation ++ [fst (explain_step pattern i)])%list
    | right _ => explanation }.
Proof.
  assert (Hbrace : forall s m, match_brace s = Some m ->
                               0 < String.length (group0 m)).
  { intros s m Hm. unfold match_brace in Hm.
    destruct s as [|c r0]; [discriminate|].
    destruct (Ascii.eqb c "{"%char) eqn:Hc.
    - apply Ascii.eqb_eq in Hc; subst c.
      destruct (take_digits r0) as [d1 r1].
      destruct (d1 =? ""); [discriminate|].
      destruct (match r1 with
                | String ","%char r => (Some ",", r)
                | _ => (None, r1)
                end) as [c2 r2].
      destruct (take_digits r2) as [d3 r3].
      destruct r3 as [|c3 r4]; [discriminate|].
      destruct (Ascii.eqb c3 "}"%char) eqn:Hc3.
      + apply Ascii.eqb_eq in Hc3; subst c3.
        inversion Hm; simpl; lia.
      + exfalso. revert Hm. clear -Hc3.
        destruct c3 as [[] [] [] [] [] [] [] []]; try discriminate.
    - exfalso. revert Hm. clear -Hc.
      destruct c as [[] [] [] [] [] [] [] []]; try discriminate. }
  assert (Hadv : i < snd (explain_step pattern i)); [| lia].
  unfold explain_step, explain_single, explain_rest.
  repeat match goal with
         | |- context [match match_brace ?s with _ => _ end] =>
             let Hm := fresh "Hm" in
             destruct (match_brace s) eqn:Hm; [apply Hbrace in Hm|]
         | |- context [if ?b then _ else _] => destruct b
         end; simpl; lia.
Qed.

Definition explain_regex (pattern : string) : list string :=
  let explanation := explain_loop pattern 0 [] in
  match explanation with
  | [] => [empty_desc]
  | _ :: _ => explanation
  end.

(** *** The shapes of a brace quantifier, for the statements below *)

Fixpoint all_digits (s : string) : bool :=
match s with
| EmptyString => true
| String c rest => is_digit c && all_digits rest
end.

(** A non-empty run of decimal digits: the [\d+] of the brace pattern. *)
Definition digits (s : string) : Prop := s <> "" /\ all_digits s = true.

Definition starts_with_digit (s : string) : bool :=
match s with
| String c _ => is_digit c
| EmptyString => false
end.

(** The three shapes [{m}], [{m,}] and [{m,n}] at the head of a string. *)
Inductive brace_shape : string -> Prop :=
| shape_exactly m rest :
    digits m -> brace_shape ("{" ++ m ++ "}" ++ rest)
| shape_at_least m rest :
    digits m -> brace_shape ("{" ++ m ++ ",}" ++ rest)
| shape_between m n rest :
    digits m -> digits n -> brace_shape ("{" ++ m ++ "," ++ n ++ "}" ++ rest).

End Explainer.

(** ** Markup escaping ([html.escape]) and the highlight wrappers *)

Module Html.
Import PyStr.

Definition dquote : string := String "034"%char EmptyString.

(** [s.replace(old, new)] for a one-character [old]. *)
Fixpoint replace_char (old : ascii) (new : string) (s : string) : string :=
  match s with
  | EmptyString => EmptyString
  | String c rest =>
      if Ascii.eqb c old then new ++ replace_char old new rest
      else String c (replace_char old new rest)
  end.

(** Modelled from the spec: [html.escape] is Python's library function,
    not code of [txt.py]; it neutralizes ampersand, angle brackets and
    both quotes, by five replacements in the library's order (ampersand
    first, so that the entities it introduces are not escaped again). *)
Definition escape (s : string) : string :=
  let s := replace_char "&"%char "&amp;" s in
  let s := replace_char "<"%char "&lt;" s in
  let s := replace_char ">"%char "&gt;" s in
  let s := replace_char "034"%char "&quot;" s in
  let s := replace_char "'"%char "&#x27;" s in
  s.

(** What [escape] does to one character. *)
Definition escape_char (c : ascii) : string :=
  if Ascii.eqb c "&"%char then "&amp;"
  else if Ascii.eqb c "<"%char then "&lt;"
  else if Ascii.eqb c ">"%char then "&gt;"
  else if Ascii.eqb c "034"%char then "&quot;"
  else if Ascii.eqb c "'"%char then "&#x27;"
  else String c EmptyString.

(** Modelled from the spec: the unescaping of the round-trip property,
    the inverse of the five entities of [escape]; any other character,
    and an ampersand that starts none of the five, is kept. *)
Fixpoint unescape_from (skip : nat) (s : string) : string :=
  match s with
  | EmptyString => EmptyString
  | String c rest =>
      match skip with
      | S k => unescape_from k rest
      | 0 =>
          if starts_with "&amp;" s then String "&"%char (unescape_from 4 rest)
          else if starts_with "&lt;" s then String "<"%char (unescape_from 3 rest)
          else if starts_with "&gt;" s then String ">"%char (unescape_from 3 rest)
          else if starts_with "&quot;" s then String "034"%char (unescape_from 5 rest)
          else if starts_with "&#x27;" s then String "'"%char (unescape_from 5 rest)
          else String c (unescape_from 0 rest)
      end
  end.

Definition unescape (s : string) : string := unescape_from 0 s.

(** The wrappers of lines 231 and 234. *)
Definition mark_open (color : string) : string :=
  "<mark style=" ++ dquote ++ "background-color:" ++ color ++ ";" ++ dquote ++ ">".
Definition mark_close : string := "</mark>".
Definition div_open : string :=
  "<div style=" ++ dquote ++ "white-space:pre-wrap; font-family: monospace;"
    ++ dquote ++ ">".
Definition div_close : string := "</div>".

Definition wrappers (color : string) : list string :=
  [div_open; div_close; mark_open color; mark_close].

(** Modelled from the spec: "stripped of the known highlight-wrapper
    markup": every occurrence of one of the four wrapper strings is
    deleted, scanning left to right; [skip] counts the characters of
    the wrapper being deleted that are still ahead. *)
Fixpoint strip_from (color : string) (skip : nat) (s : string) : string :=
  match s with
  | EmptyString => EmptyString
  | String c rest =>
      match skip with
      | S k => strip_from color k rest
      | 0 =>
          match find (fun w => starts_with w s) (wrappers color) with
          | Some w => strip_from color (String.length w - 1) rest
          | None => String c (strip_from color 0 rest)
          end
      end
  end.

Definition strip_wrappers (color : string) (s : string) : string :=
  strip_from color 0 s.

(** The characters that markup gives a meaning to. *)
Definition markup_significant (c : ascii) : bool :=
  Ascii.eqb c "<"%char || Ascii.eqb c ">"%char || Ascii.eqb c "&"%char
  || Ascii.eqb c "034"%char || Ascii.eqb c "'"%char.

Definition no_delimiter (c : ascii) : bool :=
  negb (Ascii.eqb c "<"%char || Ascii.eqb c ">"%char
        || Ascii.eqb c "034"%char || Ascii.eqb c "'"%char).

Fixpoint string_forall (f : ascii -> bool) (s : string) : bool :=
match s with
| EmptyString => true
| String c rest => f c && string_forall f rest
end.

(** [out] is markup for the text [plain]: stripping the wrappers from
    [out], whatever follows it, leaves [escape plain]. *)
Definition renders (color out plain : string) : Prop :=
forall r, strip_from color 0 (out ++ r) = escape plain ++ strip_from color 0 r.

End Html.

(** ** The regular-expression library ([re]) as the code uses it *)

Module Regex.
Import PyStr.

(** A match object: [start()], [end()] and [groups()]. *)
Record re_match := {
  m_start : nat;
  m_end : nat;
  m_groups : list (option string)
}.

(** A compiled pattern. [search text pos must_advance] is one search of
    the engine: the leftmost match that starts at or after [pos], where
    [must_advance] forbids the empty match at [pos] itself.
    [template_error] and [expand] are the parsing and the expansion of a
    replacement template that contains a backslash. *)
Record pattern_obj := {
  search : string -> nat -> bool -> option re_match;
  template_error : string -> option string;
  expand : string -> string -> re_match -> string
}.

(** What an engine guarantees about one search. *)
Definition search_in_bounds (cp : pattern_obj) : Prop :=
  forall text pos ma m,
    search cp text pos ma = Some m ->
    pos <= m_start m /\ m_start m <= m_end m /\ m_end m <= String.length text.

Definition search_advances (cp : pattern_obj) : Prop :=
  forall text pos m,
    search cp text pos true = Some m -> pos < m_end m.

(** Flag bits of [re]. *)
Definition IGNORECASE : N := 2.
Definition MULTILINE : N := 8.
Definition DOTALL : N := 16.

(** Modelled from the spec: "non-overlapping find: repeated matching
    that always resumes scanning from the end of the previous match".
    [finditer] is library code; after an empty match the next search
    must advance, which is how the library leaves an empty match behind.
    [fuel] bounds the number of searches. *)
Fixpoint scan (cp : pattern_obj) (text : string) (fuel pos : nat)
  (must_advance : bool) : list re_match :=
  match fuel with
  | 0 => []
  | S fuel' =>
      match search cp text pos must_advance with
      | None => []
      | Some m =>
          m :: scan cp text fuel' (m_end m) (m_end m =? m_start m)%nat
      end
  end.

(** Each position ends at most one non-empty and one empty match, so
    [2 * len(text) + 2] searches reach the failing one. *)
Definition finditer (cp : pattern_obj) (text : string) : list re_match :=
  scan cp text (2 * String.length text + 2) 0 false.

Fixpoint has_backslash (s : string) : bool :=
  match s with
  | EmptyString => false
  | String c rest => Ascii.eqb c "\"%char || has_backslash rest
  end.

(** The replacement of one match: a template without a backslash stands
    for itself. *)
Definition replacement (cp : pattern_obj) (repl text : string) (m : re_match)
  : string :=
  if has_backslash repl then expand cp repl text m else repl.

Fixpoint sub_loop (cp : pattern_obj) (repl text : string)
  (matches : list re_match) (last_end : nat) (out : string) : string * nat :=
  match matches with
  | [] => (out, last_end)
  | m :: rest =>
      sub_loop cp repl text rest (m_end m)
        (out ++ slice last_end (m_start m) text ++ replacement cp repl text m)
  end.

(** Modelled from the spec: "applies the matcher's substitution to
    every non-overlapping match, left to right, returning the fully
    substituted text". [inl] is a [re.error] raised for the template. *)
Definition sub (cp : pattern_obj) (repl text : string) : string + string :=
  match (if has_backslash repl then template_error cp repl else None) with
  | Some e => inl e
  | None =>
      let (out, last_end) := sub_loop cp repl text (finditer cp text) 0 "" in
      inr (out ++ slice_from last_end text)
  end.

(** *** Match lists, for the statements below *)

(** Ascending and non-overlapping from the cursor [last_end] on: every
    match starts at or after the end of the one before it. *)
Fixpoint spans_ordered (last_end : nat) (matches : list re_match) : Prop :=
match matches with
| [] => True
| m :: rest =>
    last_end <= m_start m /\ m_start m <= m_end m
    /\ spans_ordered (m_end m) rest
end.

Definition span_within (len : nat) (m : re_match) : Prop :=
m_start m <= m_end m /\ m_end m <= len.

(** The number of characters that the matches cover. *)
Fixpoint covered (matches : list re_match) : nat :=
match matches with
| [] => 0
| m :: rest => (m_end m - m_start m) + covered rest
end.

(** The text from [last_end] on with the matched spans cut out. *)
Fixpoint text_outside (text : string) (last_end : nat)
  (matches : list re_match) : string :=
match matches with
| [] => slice_from last_end text
| m :: rest =>
    slice last_end (m_start m) text ++ text_outside text (m_end m) rest
end.

End Regex.

(** ** The session: live highlighting, replace and undo (lines 203-311) *)

Module Session.
Import PyStr Html Regex.

(** What the handlers show to the user, and the library calls they
    make, in the order they happen. *)
Inductive event :=
| ToastEditorEmpty
| ToastNeedPattern
| ToastReplacementComplete
| ToastUndoComplete
| ToastNothingToUndo
| ErrorInvalidRegex (msg : string)
| CallCompile (pattern : string) (flags : N)
| CallFinditer (text : string)
| CallSub (repl text : string).

(** [st.session_state]: the keys the handlers read and write. *)
Record session_state := {
  pattern_input : string;
  case_sensitive_input : bool;
  multiline_input : bool;
  dotall_input : bool;
  color_input : string;
  replace_with_input : string;
  editor_content : string;
  last_editor_content : option string;
  highlight_output : string;
  match_count : nat;
  events : list event
}.

Definition set_highlight (out : string) (n : nat) (st : session_state) :=
  {| pattern_input := pattern_input st;
     case_sensitive_input := case_sensitive_input st;
     multiline_input := multiline_input st;
     dotall_input := dotall_input st;
     color_input := color_input st;
     replace_with_input := replace_with_input st;
     editor_content := editor_content st;
     last_editor_content := last_editor_content st;
     highlight_output := out;
     match_count := n;
     events := events st |}.

Definition set_editor_content (text : string) (st : session_state) :=
  {| pattern_input := pattern_input st;
     case_sensitive_input := case_sensitive_input st;
     multiline_input := multiline_input st;
     dotall_input := dotall_input st;
     color_input := color_input st;
     replace_with_input := replace_with_input st;
     editor_content := text;
     last_editor_content := last_editor_content st;
     highlight_output := highlight_output st;
     match_count := match_count st;
     events := events st |}.

Definition set_last_editor_content (snapshot : option string)
  (st : session_state) :=
  {| pattern_input := pattern_input st;
     case_sensitive_input := case_sensitive_input st;
     multiline_input := multiline_input st;
     dotall_input := dotall_input st;
     color_input := color_input st;
     replace_with_input := replace_with_input st;
     editor_content := editor_content st;
     last_editor_content := snapshot;
     highlight_output := highlight_output st;
     match_count := match_count st;
     events := events st |}.

Definition emit (e : event) (st : session_state) :=
  {| pattern_input := pattern_input st;
     case_sensitive_input := case_sensitive_input st;
     multiline_input := multiline_input st;
     dotall_input := dotall_input st;
     color_input := color_input st;
     replace_with_input := replace_with_input st;
     editor_content := editor_content st;
     last_editor_content := last_editor_content st;
     highlight_output := highlight_output st;
     match_count := match_count st;
     events := (events st ++ [e])%list |}.

Definition enter_pattern_html : string :=
  "<p style='color:grey; font-family:monospace;'>Enter a pattern to see live highlighting.</p>".
Definition no_matches_html : string :=
  "<p style='color:grey; font-family:monospace;'>No matches found.</p>".
Definition invalid_regex_html (e : string) : string :=
  "<p style=" ++ dquote ++ "color:red; font-family: monospace;" ++ dquote
    ++ ">Invalid Regex: " ++ e ++ "</p>".

(** Lines 227-232: the cursor walk over the matches. *)
Fixpoint highlight_loop (text color : string) (matches : list re_match)
  (last_end : nat) (output_html : string) : string * nat :=
  match matches with
  | [] => (output_html, last_end)
  | m :: rest =>
      let output_html :=
        output_html ++ escape (slice last_end (m_start m) text) in
      let match_text := escape (slice (m_start m) (m_end m) text) in
      let output_html :=
        output_html ++ mark_open color ++ match_text ++ mark_close in
      highlight_loop text color rest (m_end m) output_html
  end.

(** Lines 224-234: the markup for the matches found. *)
Definition highlight_markup (text color : string) (matches : list re_match)
  : string :=
  match matches with
  | [] => no_matches_html
  | _ :: _ =>
      let (output_html, last_end) := highlight_loop text color matches 0 "" in
      let output_html := output_html ++ escape (slice_from last_end text) in
      div_open ++ output_html ++ div_close
  end.

(** The session at start-up (lines 316-339). *)
Definition initial_state : session_state :=
{| pattern_input := "";
   case_sensitive_input := false;
   multiline_input := false;
   dotall_input := false;
   color_input := "yellow";
   replace_with_input := "";
   editor_content := "";
   last_editor_content := None;
   highlight_output :=
     "<p style='color:grey; font-family:monospace;'>Load a file or paste text to get started.</p>";
   match_count := 0;
   events := [] |}.

(** The user types a pattern, or edits the text: the widgets write the
    key before the handler runs. *)
Definition with_inputs (pattern text : string) (st : session_state) :=
{| pattern_input := pattern;
   case_sensitive_input := case_sensitive_input st;
   multiline_input := multiline_input st;
   dotall_input := dotall_input st;
   color_input := color_input st;
   replace_with_input := replace_with_input st;
   editor_content := text;
   last_editor_content := last_editor_content st;
   highlight_output := highlight_output st;
   match_count := match_count st;
   events := events st |}.

Section Handlers.

(** [re.compile]: [inl] is the message of the [re.error] it raises. *)
Variable re_compile : string -> N -> string + pattern_obj.

(** Lines 22-28. *)
Definition compile_flags (case_sensitive multiline dotall : bool) : N :=
  let flags := if case_sensitive then 0%N else IGNORECASE in
  let flags := if multiline then N.lor flags MULTILINE else flags in
  let flags := if dotall then N.lor flags DOTALL else flags in
  flags.

Definition compile_pattern (pattern : string)
  (case_sensitive multiline dotall : bool) : string + pattern_obj :=
  re_compile pattern (compile_flags case_sensitive multiline dotall).

(** Lines 203-240. *)
Definition live_highlight (st : session_state) : session_state :=
  let pattern := pattern_input st in
  let case_sensitive := case_sensitive_input st in
  let multiline := multiline_input st in
  let dotall := dotall_input st in
  let text_content := editor_content st in
  let color := color_input st in
  if (pattern =? "") || (text_content =? "") then
    set_highlight enter_pattern_html 0 st
  else
    let st :=
      emit (CallCompile pattern
              (compile_flags case_sensitive multiline dotall)) st in
    match compile_pattern pattern case_sensitive multiline dotall with
    | inl e => set_highlight (invalid_regex_html e) 0 st
    | inr cp =>
        let st := emit (CallFinditer text_content) st in
        let matches := finditer cp text_content in
        let match_count := List.length matches in
        set_highlight (highlight_markup text_content color matches)
          match_count st
    end.

(** Lines 277-302. *)
Definition replace_editor_content (st : session_state) : session_state :=
  if editor_content st =? "" then emit ToastEditorEmpty st
  else
    let pattern := pattern_input st in
    if pattern =? "" then emit ToastNeedPattern st
    else
      let case_sensitive := case_sensitive_input st in
      let multiline := multiline_input st in
      let dotall := dotall_input st in
      let replace_with := replace_with_input st in
      let st :=
        emit (CallCompile pattern
                (compile_flags case_sensitive multiline dotall)) st in
      match compile_pattern pattern case_sensitive multiline dotall with
      | inl e => emit (ErrorInvalidRegex e) st
      | inr cp =>
          let original := editor_content st in
          let st := set_last_editor_content (Some original) st in
          let st := emit (CallSub replace_with original) st in
          match sub cp replace_with original with
          | inl e => emit (ErrorInvalidRegex e) st
          | inr replaced =>
              let st := set_editor_content replaced st in
              let st := live_highlight st in
              emit ToastReplacementComplete st
          end
      end.

(** Lines 304-311. *)
Definition undo_editor_content (st : session_state) : session_state :=
  match last_editor_content st with
  | Some snapshot =>
      let st := set_editor_content snapshot st in
      let st := set_last_editor_content None st in
      let st := live_highlight st in
      emit ToastUndoComplete st
  | None => emit ToastNothingToUndo st
  end.

End Handlers.

End Session.

(** ** The saved-pattern library file ([load_patterns_file], lines 138-146) *)

Module Library.

(** The exception classes that the calls of the loader can raise.
    [IOError] is Python's [OSError]; [JSONDecodeError] and
    [UnicodeDecodeError] are two different subclasses of [ValueError]. *)
Inductive os_error :=
| FileNotFoundError
| PermissionError
| IsADirectoryError
| OtherOSError.

Inductive exn :=
| OSError (e : os_error)
| JSONDecodeError
| UnicodeDecodeError
| RecursionError.

Inductive outcome (A : Type) :=
| Return (v : A)
| Raise (e : exn).
Arguments Return {A} v.
Arguments Raise {A} e.

(** A decoded JSON value; a character is its code point. *)
#[local] Unset Elimination Schemes.
Inductive json :=
| JNull
| JBool (b : bool)
| JNumber (repr : list N)
| JString (s : list N)
| JArray (items : list json)
| JObject (members : list (list N * json)).
#[local] Set Elimination Schemes.

(** What the file system answers for [PATTERNS_FILE]:
    [os.path.exists], and [open] followed by reading all the bytes. *)
Record filesystem := {
  path_exists : bool;
  open_read : os_error + list byte
}.

(** *** Decoding the bytes ([encoding="utf-8"], strict) *)

Definition in_range (lo hi n : N) : bool := ((lo <=? n) && (n <=? hi))%N.

Definition continuation (b : byte) : bool := in_range 128 191 (Byte.to_N b).

Definition low6 (b : byte) : N := N.land (Byte.to_N b) 63.

(** The bounds on the second byte exclude overlong forms, surrogates
    and code points above U+10FFFF. *)
Definition second_ok (n0 : N) (b1 : byte) : bool :=
  let n1 := Byte.to_N b1 in
  if (n0 =? 224)%N then in_range 160 191 n1
  else if (n0 =? 237)%N then in_range 128 159 n1
  else if (n0 =? 240)%N then in_range 144 191 n1
  else if (n0 =? 244)%N then in_range 128 143 n1
  else in_range 128 191 n1.

Fixpoint utf8_decode (bs : list byte) : option (list N) :=
  match bs with
  | [] => Some []
  | b0 :: r0 =>
      let n0 := Byte.to_N b0 in
      if (n0 <? 128)%N then option_map (cons n0) (utf8_decode r0)
      else if in_range 194 223 n0 then
        match r0 with
        | b1 :: r1 =>
            if continuation b1
            then option_map
                   (cons (N.lor (N.shiftl (N.land n0 31) 6) (low6 b1)))
                   (utf8_decode r1)
            else None
        | _ => None
        end
      else if in_range 224 239 n0 then
        match r0 with
        | b1 :: b2 :: r2 =>
            if second_ok n0 b1 && continuation b2
            then option_map
                   (cons (N.lor (N.shiftl (N.land n0 15) 12)
                            (N.lor (N.shiftl (low6 b1) 6) (low6 b2))))
                   (utf8_decode r2)
            else None
        | _ => None
        end
      else if in_range 240 244 n0 then
        match r0 with
        | b1 :: b2 :: b3 :: r3 =>
            if second_ok n0 b1 && continuation b2 && continuation b3
            then option_map
                   (cons (N.lor (N.shiftl (N.land n0 7) 18)
                            (N.lor (N.shiftl (low6 b1) 12)
                               (N.lor (N.shiftl (low6 b2) 6) (low6 b3)))))
                   (utf8_decode r3)
            else None
        | _ => None
        end
      else None
  end.

(** [except (json.JSONDecodeError, IOError)]. *)
Definition handled (e : exn) : bool :=
  match e with
  | JSONDecodeError | OSError _ => true
  | UnicodeDecodeError | RecursionError => false
  end.

Section Loader.

(** [json.loads] on the decoded text: the parsed value, or the
    exception the parser raises. *)
Variable json_loads : list N -> outcome json.

(** The body of the [try] block (lines 142-144). *)
Definition read_library (fs : filesystem) : outcome (list json) :=
  match open_read fs with
  | inl e => Raise (OSError e)
  | inr bytes =>
      match utf8_decode bytes with
      | None => Raise UnicodeDecodeError
      | Some text =>
          match json_loads text with
          | Raise e => Raise e
          | Return (JArray items) => Return items
          | Return _ => Return []
          end
      end
  end.

Definition load_patterns_file (fs : filesystem) : outcome (list json) :=
  if negb (path_exists fs) then Return []
  else
    match read_library fs with
    | Return data => Return data
    | Raise e => if handled e then Return [] else Raise e
    end.

End Loader.

End Library.

(** ** An engine for patterns without metacharacters

  Python compiles a pattern made only of ordinary characters to the
  search for that substring, and refuses the unterminated group ["("].
  [compile] below is [re.compile] on these patterns; it serves to run
  the handlers on concrete inputs, and refuses every other pattern with
  a metacharacter, which [re.compile] does not do in general. *)

Module LiteralEngine.
Import PyStr Regex.

Definition is_meta (c : ascii) : bool := in_chars (String c "") ".^$*+?{}[]\|()".

Fixpoint all_ordinary (s : string) : bool :=
  match s with
  | EmptyString => true
  | String c rest => negb (is_meta c) && all_ordinary rest
  end.

(** Case folding on the alphabet of the model: 'A'..'Z' and the
    capital letters from U+00C0 to U+00DE (the sign U+00D7 apart). *)
Definition lower_char (c : ascii) : ascii :=
  let n := nat_of_ascii c in
  if ((65 <=? n) && (n <=? 90)
      || (192 <=? n) && (n <=? 222) && negb (n =? 215))%nat
  then ascii_of_nat (n + 32) else c.

Fixpoint lower (s : string) : string :=
  match s with
  | EmptyString => EmptyString
  | String c rest => String (lower_char c) (lower rest)
  end.

Definition fold_case (flags : N) (s : string) : string :=
  if N.testbit flags 1 then lower s else s.

(** The first offset [>= start] at which [needle] begins, where [rest]
    is the text from [start] on. *)
Fixpoint find_at (needle rest : string) (start : nat) : option nat :=
  if starts_with needle rest then Some start
  else match rest with
       | EmptyString => None
       | String _ rest' => find_at needle rest' (S start)
       end.

Definition literal_search (flags : N) (needle text : string) (pos : nat)
  (must_advance : bool) : option re_match :=
  let start := if must_advance && (needle =? "") then S pos else pos in
  if (String.length text <? start)%nat then None
  else
    match find_at (fold_case flags needle)
            (fold_case flags (slice_from start text)) start with
    | Some s =>
        Some {| m_start := s; m_end := s + String.length needle;
                m_groups := [] |}
    | None => None
    end.

Definition literal (flags : N) (needle : string) : pattern_obj :=
  {| search := literal_search flags needle;
     template_error := fun _ => Some "bad escape";
     expand := fun repl _ _ => repl |}.

Definition compile (pattern : string) (flags : N) : string + pattern_obj :=
  if all_ordinary pattern then inr (literal flags pattern)
  else if pattern =? "(" then
    inl "missing ), unterminated subpattern at position 0"
  else inl "pattern outside the literal fragment".

End LiteralEngine.

(** ** More Python primitives, for the handlers below *)

Module PyMore.
Import PyStr.

(** [s[:-n]] for [n > 0]. *)
Definition drop_last (n : nat) (s : string) : string :=
  substring 0 (String.length s - n) s.

(** [s.endswith(w)]. *)
Definition ends_with (w s : string) : bool :=
  (String.length w <=? String.length s)%nat
  && starts_with w (slice_from (String.length s - String.length w) s).

(** [options.index(sel)]: the first position that holds [sel];
    [None] stands for the [ValueError] of a value that is not there, and
    for [sel in options] being false. *)
Fixpoint index_of (sel : string) (options : list string) : option nat :=
  match options with
  | [] => None
  | o :: rest =>
      if sel =? o then Some 0 else option_map S (index_of sel rest)
  end.

(** [list.pop(idx)], the list that is left. *)
Fixpoint remove_at {A : Type} (idx : nat) (l : list A) : list A :=
  match l, idx with
  | [], _ => []
  | _ :: rest, 0 => rest
  | x :: rest, S idx' => x :: remove_at idx' rest
  end.

(** [str(n)] for a non-negative integer. *)
Definition string_of_nat (n : nat) : string :=
  DecimalString.NilZero.string_of_uint (Nat.to_uint n).

End PyMore.

(** ** The pattern widgets and the saved-pattern list
       (lines 12-20, 242-275 and 456-484) *)

Module PatternLibrary.
Import PyStr PyMore Regex Session.

(** An entry of [COMMON_PATTERNS]. *)
Record common_pattern := {
  cp_pattern : string;
  cp_case_sensitive : bool;
  cp_replace_with : string
}.

Definition placeholder_choice : string := "Select a common pattern...".

Definition COMMON_PATTERNS : list (string * common_pattern) :=
  [ (placeholder_choice,
     {| cp_pattern := ""; cp_case_sensitive := false; cp_replace_with := "" |});
    ("Email Address",
     {| cp_pattern := "[\w\.\-]+@[\w\.\-]+\.\w+";
        cp_case_sensitive := false; cp_replace_with := "" |});
    ("URL (http/https)",
     {| cp_pattern := "https?://[^\s/$.?#].[^\s]*";
        cp_case_sensitive := false; cp_replace_with := "" |});
    ("Phone Number (U.S.)",
     {| cp_pattern := "\(?\d{3}\)?[\s.-]?\d{3}[\s.-]?\d{4}";
        cp_case_sensitive := false; cp_replace_with := "" |});
    ("Date (YYYY-MM-DD)",
     {| cp_pattern := "\d{4}-\d{2}-\d{2}";
        cp_case_sensitive := false; cp_replace_with := "" |});
    ("IP Address (IPv4)",
     {| cp_pattern := "\b(?:\d{1,3}\.){3}\d{1,3}\b";
        cp_case_sensitive := false; cp_replace_with := "" |});
    ("HTML Tag",
     {| cp_pattern := "<([a-z][a-z0-9]*)\b[^>]*>(.*?)</\1>";
        cp_case_sensitive := false; cp_replace_with := "" |}) ].

Fixpoint common_get (choice : string) (table : list (string * common_pattern))
  : option common_pattern :=
  match table with
  | [] => None
  | (k, v) :: rest => if choice =? k then Some v else common_get choice rest
  end.

(** A saved pattern: the dictionary that the save handler writes. A key
    may be missing (the readers use [get] with a default); a value that
    is present has the type the save handler gives it. *)
Record saved_pattern := {
  p_name : option string;
  p_pattern : option string;
  p_case_sensitive : option bool;
  p_multiline : option bool;
  p_dotall : option bool;
  p_color : option string;
  p_replace_with : option string
}.

(** [p.get(key, default)]. *)
Definition get {A : Type} (field : option A) (default : A) : A :=
  match field with Some v => v | None => default end.

(** What the handlers outside the session record show and call. *)
Inductive notice :=
| ToastLoadedCommon (choice : string)
| ToastLoadedSaved (name : string)
| ToastEnterPatternToSave
| ToastSaved (pname : string)
| ToastDeleted (name : string)
| CallSavePatternsFile (patterns : list saved_pattern).

(** The session record together with the keys [patterns] and
    [pattern_name]. *)
Record app_state := {
  session : session_state;
  patterns : list saved_pattern;
  pattern_name : string;
  notices : list notice
}.

Definition with_session (s : session_state) (a : app_state) : app_state :=
  {| session := s; patterns := patterns a; pattern_name := pattern_name a;
     notices := notices a |}.

Definition with_patterns (ps : list saved_pattern) (a : app_state) : app_state :=
  {| session := session a; patterns := ps; pattern_name := pattern_name a;
     notices := notices a |}.

Definition with_pattern_name (name : string) (a : app_state) : app_state :=
  {| session := session a; patterns := patterns a; pattern_name := name;
     notices := notices a |}.

Definition notify (n : notice) (a : app_state) : app_state :=
  {| session := session a; patterns := patterns a;
     pattern_name := pattern_name a; notices := (notices a ++ [n])%list |}.

(** The pattern widgets of the session, written at once. *)
Definition with_settings (pattern : string)
  (case_sensitive multiline dotall : bool) (color replace_with : string)
  (st : session_state) : session_state :=
  {| pattern_input := pattern;
     case_sensitive_input := case_sensitive;
     multiline_input := multiline;
     dotall_input := dotall;
     color_input := color;
     replace_with_input := replace_with;
     editor_content := editor_content st;
     last_editor_content := last_editor_content st;
     highlight_output := highlight_output st;
     match_count := match_count st;
     events := events st |}.

(** The label of a saved pattern in the select box (lines 263 and 426). *)
Definition option_label (p : saved_pattern) : string :=
  get (p_name p) "unnamed" ++ " | "
    ++ (if get (p_case_sensitive p) false then "CS" else "CI") ++ " | "
    ++ get (p_pattern p) "".

Section Handlers.

Variable re_compile : string -> N -> string + pattern_obj.

(** Lines 242-244. *)
Definition insert_token (token : string) (st : session_state) : session_state :=
  let st := with_inputs (pattern_input st ++ token) (editor_content st) st in
  live_highlight re_compile st.

(** Lines 246-256; [None] is the [KeyError] of a choice that is not a key
    of [COMMON_PATTERNS]. *)
Definition load_common_pattern (library_choice : string) (a : app_state)
  : option app_state :=
  if negb (library_choice =? placeholder_choice) then
    match common_get library_choice COMMON_PATTERNS with
    | None => None
    | Some p =>
        let st := session a in
        let st :=
          with_settings (cp_pattern p) (cp_case_sensitive p) false false
            (color_input st) (cp_replace_with p) st in
        let a := with_session st a in
        let a := notify (ToastLoadedCommon library_choice) a in
        Some (with_session (live_highlight re_compile (session a)) a)
    end
  else Some a.

(** Lines 258-275, for the selection [sel] of the select box. *)
Definition load_saved_pattern (sel : option string) (a : app_state)
  : app_state :=
  match sel with
  | None => a
  | Some sel =>
      if sel =? "" then a
      else
        let options := map option_label (patterns a) in
        match index_of sel options with
        | None => a
        | Some idx =>
            match nth_error (patterns a) idx with
            | None => a
            | Some p =>
                let st :=
                  with_settings (get (p_pattern p) "")
                    (get (p_case_sensitive p) false)
                    (get (p_multiline p) false) (get (p_dotall p) false)
                    (get (p_color p) "yellow") (get (p_replace_with p) "")
                    (session a) in
                let a := with_session st a in
                let a := with_pattern_name (get (p_name p) "") a in
                let a := notify (ToastLoadedSaved (get (p_name p) "")) a in
                with_session (live_highlight re_compile (session a)) a
            end
        end
  end.

End Handlers.

(** Lines 456-475: the Save button. *)
Definition save_pattern (a : app_state) : app_state :=
  let st := session a in
  if pattern_input st =? "" then notify ToastEnterPatternToSave a
  else
    let pname :=
      if pattern_name a =? ""
      then "pattern_" ++ string_of_nat (List.length (patterns a) + 1)
      else pattern_name a in
    let new_pattern :=
      {| p_name := Some pname;
         p_pattern := Some (pattern_input st);
         p_case_sensitive := Some (case_sensitive_input st);
         p_multiline := Some (multiline_input st);
         p_dotall := Some (dotall_input st);
         p_color := Some (color_input st);
         p_replace_with := Some (replace_with_input st) |} in
    let patterns := (patterns a ++ [new_pattern])%list in
    let a := notify (CallSavePatternsFile patterns) a in
    let a := with_patterns patterns a in
    notify (ToastSaved pname) a.

(** Lines 477-484: the Delete button with the selection [sel]; [None] is
    the [ValueError] of [options.index] on a selection that is no label. *)
Definition delete_pattern (sel : option string) (a : app_state)
  : option app_state :=
  match sel with
  | None => Some a
  | Some sel =>
      if sel =? "" then Some a
      else
        let options := map option_label (patterns a) in
        match index_of sel options with
        | None => None
        | Some idx =>
            let name_del :=
              match nth_error (patterns a) idx with
              | Some p => get (p_name p) "unnamed"
              | None => "unnamed"
              end in
            let patterns := remove_at idx (patterns a) in
            let a := notify (CallSavePatternsFile patterns) a in
            let a := with_patterns patterns a in
            Some (notify (ToastDeleted name_del) a)
        end
  end.

End PatternLibrary.

(** ** Saving the editor text to a file (lines 188-201 and 600-607) *)

Module Files.
Import PyStr PyMore.

(** [save_editor_content_to_file] (lines 188-201) talks to the operating
    system through four calls, each made at most once and in a fixed
    order. What a call does to the disk is the operating system's
    business; the function sees only whether [os.path.exists] answers
    true and whether a call raises, and these answers are the record
    below, each one for the state of the disk at the time of its call. *)
Record os_answers := {
  exists_answer : string -> bool;
  copy2_raises : string -> string -> bool;
  open_raises : string -> bool;
  write_raises : string -> string -> bool
}.

Inductive os_call :=
| CallExists (path : string)
| CallCopy2 (src dst : string)
| CallOpenW (path : string)
| CallWrite (path content : string).

(** The pair that [save_editor_content_to_file] returns:
    [(True, backup_path)] or [(False, message)]. *)
Inductive save_result :=
| Saved (backup_path : option string)
| SaveFailed.

(** Lines 195-196: [with open(path, "w") as f: f.write(content)], the
    calls made so far in front. *)
Definition write_file (os : os_answers) (calls : list os_call)
  (path content : string) (backup_path : option string)
  : list os_call * save_result :=
  if open_raises os path
  then ((calls ++ [CallOpenW path])%list, SaveFailed)
  else if write_raises os path content
  then ((calls ++ [CallOpenW path; CallWrite path content])%list, SaveFailed)
  else ((calls ++ [CallOpenW path; CallWrite path content])%list,
        Saved backup_path).

(** The calls made, in order, and the result. *)
Definition save_editor_content_to_file (os : os_answers)
  (path content : string) : list os_call * save_result :=
  let backup_path := path ++ ".bak" in
  if exists_answer os path
  then
    if copy2_raises os path backup_path
    then ([CallExists path; CallCopy2 path backup_path], SaveFailed)
    else write_file os [CallExists path; CallCopy2 path backup_path]
           path content (Some backup_path)
  else write_file os [CallExists path] path content None.

(** Line 607: the file that a backup is restored to. *)
Definition original_file (backup_file : string) : option string :=
  if ends_with ".bak" backup_file then Some (drop_last 4 backup_file) else None.

End Files.

(** ** Predicates of the statements about the explainer *)

Module ExplainerShapes.
Import PyStr.

(** The characters that no branch of the loop treats specially. *)
Definition ordinary (c : ascii) : bool :=
  negb (in_chars (String c "") "\.^$*+?{()|[]").

(** The letters that name a character class after a backslash. *)
Definition class_letter (c : ascii) : bool :=
  in_chars (String c "") "dDwWsSbB".

End ExplainerShapes.

(** ** The text after a substitution, for the statements below *)

Module RegexShapes.
Import PyStr Regex.

(** The text from [last_end] on with every matched span replaced by
    [repl]. *)
Fixpoint text_with (repl text : string) (last_end : nat)
  (matches : list re_match) : string :=
  match matches with
  | [] => slice_from last_end text
  | m :: rest =>
      slice last_end (m_start m) text ++ repl
        ++ text_with repl text (m_end m) rest
  end.

End RegexShapes.

(** ** The pattern explainer on every Python string

    A Python [str] is a sequence of code points of any size; here it is
    the list of its code points. This is [explain_regex] (lines 30-135)
    with nothing left out; the explainer of [Explainer] above is its
    restriction to the patterns whose characters are below 256. The only
    place where the code consults the Unicode database is the [\d] of the
    brace pattern of line 80: the table of decimal digits is a parameter
    ([is_digit]). *)

Module UExplainer.
Local Open Scope list_scope.

Definition ustring := list N.

Definition ch (c : ascii) : N := N_of_ascii c.

(** A string of the model alphabet as a Python [str]. *)
Fixpoint of_string (s : string) : ustring :=
  match s with
  | EmptyString => []
  | String c rest => ch c :: of_string rest
  end.

(** [a == b] on strings. *)
Fixpoint ueqb (a b : ustring) : bool :=
  match a, b with
  | [], [] => true
  | x :: a', y :: b' => N.eqb x y && ueqb a' b'
  | _, _ => false
  end.

(** [s[a:b]], [s[a:]] and [s[i]] for non-negative indices. *)
Definition slice (a b : nat) (s : ustring) : ustring :=
  firstn (b - a) (skipn a s).
Definition slice_from (a : nat) (s : ustring) : ustring := skipn a s.
Definition char_at (s : ustring) (i : nat) : ustring := firstn 1 (skipn i s).

(** [c in chars] for a one-character [c]. *)
Fixpoint in_chars (c : ustring) (chars : ustring) : bool :=
  match chars with
  | [] => false
  | x :: rest => ueqb c [x] || in_chars c rest
  end.

Definition dict := list (ustring * ustring).

Fixpoint dict_get (d : dict) (key : ustring) : option ustring :=
  match d with
  | [] => None
  | (k, v) :: rest => if ueqb key k then Some v else dict_get rest key
  end.

Definition dict_mem (d : dict) (key : ustring) : bool :=
  match dict_get d key with Some _ => true | None => false end.

Definition dict_index (d : dict) (key : ustring) : ustring :=
  match dict_get d key with Some v => v | None => [] end.

Definition of_dict (d : PyStr.dict) : dict :=
  map (fun kv => (of_string (fst kv), of_string (snd kv))) d.

(** The two tables of lines 33-45 and 70-74. *)
Definition token_map : dict := of_dict Explainer.token_map.
Definition quantifier_map : dict := of_dict Explainer.quantifier_map.

(** The result of [re.match] on the brace pattern. *)
Record brace_match := {
  group0 : ustring;
  g1 : ustring;
  g2 : option ustring;
  g3 : option ustring
}.

Definition opt_str (o : option ustring) : ustring :=
  match o with Some s => s | None => [] end.

Definition is_empty (s : ustring) : bool :=
  match s with [] => true | _ :: _ => false end.

(** Lines 84-89. *)
Definition brace_desc (m : brace_match) : ustring :=
  match g2 m, g3 m with
  | None, None => of_string "exactly " ++ g1 m ++ of_string " times"
  | _, None => of_string "at least " ++ g1 m ++ of_string " times"
  | _, Some n =>
      of_string "between " ++ g1 m ++ of_string " and " ++ n
        ++ of_string " times"
  end.

Definition literal_desc (char : ustring) : ustring :=
  of_string "- **Literal Character** (`" ++ char
    ++ of_string "`): Matches the character '" ++ char
    ++ of_string "' literally.".

Definition escaped_literal_desc (token next : ustring) : ustring :=
  of_string "- **Literal Character** (`" ++ token
    ++ of_string "`): Matches the character '" ++ next
    ++ of_string "' literally.".

Definition quantifier_desc (m : brace_match) : ustring :=
  of_string "- **Quantifier** (`" ++ group0 m
    ++ of_string "`): The preceding element must occur "
    ++ brace_desc m ++ of_string ".".

(** Lines 94-130. *)
Definition explain_rest (pattern : ustring) (i : nat) (char : ustring)
  : ustring * nat :=
  if ueqb char (of_string "(") then
    if ueqb (slice i (i + 3) pattern) (of_string "(?:") then
      (of_string "- " ++ of_string Explainer.non_capturing_desc, i + 2 + 1)
    else if ueqb (slice i (i + 2) pattern) (of_string "(?") then
      (of_string Explainer.lookaround_desc, i + 1)
    else (of_string "- " ++ of_string Explainer.capturing_desc, i + 1)
  else if ueqb char (of_string ")") then
    (of_string Explainer.end_group_desc, i + 1)
  else if ueqb char (of_string "|") then
    (of_string Explainer.alternation_desc, i + 1)
  else if ueqb char (of_string "[") then
    if ueqb (slice (i + 1) (i + 2) pattern) (of_string "^") then
      (of_string "- " ++ of_string Explainer.negated_set_desc, i + 1 + 1)
    else (of_string "- " ++ of_string Explainer.set_desc, i + 1)
  else if ueqb char (of_string "]") then
    (of_string Explainer.end_set_desc, i + 1)
  else (literal_desc char, i + 1).

Section Digits.

(** [\d] of line 80: the decimal digits of the Unicode database that
    [re] consults. *)
Variable is_digit : N -> bool.

(** The greedy [\d*]. *)
Fixpoint take_digits (s : ustring) : ustring * ustring :=
  match s with
  | c :: rest =>
      if is_digit c
      then let (ds, tl) := take_digits rest in (c :: ds, tl)
      else ([], s)
  | [] => ([], [])
  end.

(** [re.match(r'\{(\d+)(,)?(\d+)?\}', s)]: each run of digits is taken
    greedily; where this reading fails no other split of the digits
    succeeds. *)
Definition match_brace (s : ustring) : option brace_match :=
  match s with
  | c0 :: r0 =>
      if N.eqb c0 (ch "{") then
        let (d1, r1) := take_digits r0 in
        if is_empty d1 then None
        else
          let (c2, r2) :=
            match r1 with
            | c :: r => if N.eqb c (ch ",") then (Some [c], r) else (None, r1)
            | [] => (None, r1)
            end in
          let (d3, r3) := take_digits r2 in
          let c3 := if is_empty d3 then None else Some d3 in
          match r3 with
          | c :: _ =>
              if N.eqb c (ch "}") then
                Some {| group0 := of_string "{" ++ d1 ++ opt_str c2
                                    ++ opt_str c3 ++ of_string "}";
                        g1 := d1; g2 := c2; g3 := c3 |}
              else None
          | [] => None
          end
      else None
  | [] => None
  end.

(** Lines 64-92. *)
Definition explain_single (pattern : ustring) (i : nat) (char : ustring)
  : ustring * nat :=
  let token := char in
  if dict_mem token_map token then
    (of_string "- " ++ dict_index token_map token, i + 1)
  else if in_chars char (of_string "*+?") then
    (of_string "- " ++ dict_index quantifier_map char, i + 1)
  else
    match (if ueqb char (of_string "{")
           then match_brace (slice_from i pattern) else None) with
    | Some m => (quantifier_desc m, i + List.length (group0 m))
    | None => explain_rest pattern i char
    end.

(** Lines 49-62. *)
Definition explain_step (pattern : ustring) (i : nat) : ustring * nat :=
  let char := char_at pattern i in
  if ueqb char (of_string "\") && (i + 1 <? List.length pattern)%nat then
    let token := slice i (i + 2) pattern in
    if dict_mem token_map token then
      (of_string "- " ++ dict_index token_map token, i + 2)
    else
      (escaped_literal_desc token (char_at pattern (i + 1)), i + 2)
  else explain_single pattern i char.

(** The loop of lines 47-48. *)
Equations? explain_loop (pattern : ustring) (i : nat)
  (explanation : list ustring)
  : list ustring by wf (List.length pattern - i) lt :=
  explain_loop pattern i explanation with lt_dec i (List.length pattern) := {
    | left _ =>
        explain_loop pattern (snd (explain_step pattern i))
          (explanation ++ [fst (explain_step pattern i)])
    | right _ => explanation }.
Proof.
  assert (Hbrace : forall s m, match_brace s = Some m ->
                               0 < List.length (group0 m)).
  { intros s m Hm. unfold match_brace in Hm.
    destruct s as [|c0 r0]; [discriminate|].
    destruct (N.eqb c0 (ch "{")); [|discriminate].
    destruct (take_digits r0) as [d1 r1].
    destruct (is_empty d1); [discriminate|].
    destruct (match r1 with
              | c :: r => if N.eqb c (ch ",") then (Some [c], r) else (None, r1)
              | [] => (None, r1)
              end) as [c2 r2].
    destruct (take_digits r2) as [d3 r3].
    destruct r3 as [|c3 r4]; [discriminate|].
    destruct (N.eqb c3 (ch "}")); [|discriminate].
    inversion Hm; simpl; lia. }
  assert (Hadv : i < snd (explain_step pattern i)); [| lia].
  unfold explain_step, explain_single, explain_rest.
  repeat match goal with
         | |- context [match match_brace ?s with _ => _ end] =>
             let Hm := fresh "Hm" in
             destruct (match_brace s) eqn:Hm; [apply Hbrace in Hm|]
         | |- context [if ?b then _ else _] => destruct b
         end; simpl; lia.
Qed.

(** Lines 132-135. *)
Definition explain_regex (pattern : ustring) : list ustring :=
  let explanation := explain_loop pattern 0 [] in
  match explanation with
  | [] => [of_string Explainer.empty_desc]
  | _ :: _ => explanation
  end.

(** A non-empty run of decimal digits. *)
Definition digits (s : ustring) : Prop :=
  s <> [] /\ forallb is_digit s = true.

(** The three shapes [{m}], [{m,}] and [{m,n}] at the head of a string. *)
Inductive brace_shape : ustring -> Prop :=
| shape_exactly m rest :
    digits m -> brace_shape (of_string "{" ++ m ++ of_string "}" ++ rest)
| shape_at_least m rest :
    digits m -> brace_shape (of_string "{" ++ m ++ of_string ",}" ++ rest)
| shape_between m n rest :
    digits m -> digits n ->
    brace_shape (of_string "{" ++ m ++ of_string "," ++ n
                   ++ of_string "}" ++ rest).

End Digits.

(** A brace match of [Explainer], as Python strings. *)
Definition of_brace_match (m : Explainer.brace_match) : brace_match :=
  {| group0 := of_string (Explainer.group0 m);
     g1 := of_string (Explainer.g1 m);
     g2 := option_map of_string (Explainer.g2 m);
     g3 := option_map of_string (Explainer.g3 m) |}.

(** A digit table for running the explainer: '0'..'9' and the
    Arabic-Indic digits U+0660..U+0669, two of the blocks of decimal
    digits of the Unicode database. *)
Definition sample_digit (c : N) : bool :=
  ((48 <=? c) && (c <=? 57) || (1632 <=? c) && (c <=? 1641))%N.

End UExplainer.

(** * Properties *)

(** ** Strings and slices *)

Section StringFacts.
Import PyStr.

Lemma substring_split (s : string) : forall n m k,
  substring n m s ++ substring (n + m) k s = substring n (m + k) s.
Proof.
  induction s as [|c s IH]; intros n m k.
  - destruct n, m, k; reflexivity.
  - destruct n as [|n].
    + destruct m as [|m]; simpl.
      * reflexivity.
      * f_equal. apply (IH 0 m k).
    + simpl. apply IH.
Qed.

Lemma slice_join (s : string) (a b c : nat) :
  a <= b -> b <= c -> slice a b s ++ slice b c s = slice a c s.
Proof.
  intros Hab Hbc. unfold slice.
  replace b with (a + (b - a)) at 2 by lia.
  rewrite substring_split. f_equal. lia.
Qed.

Lemma slice_from_0 (s : string) : slice_from 0 s = s.
Proof. destruct s; reflexivity. Qed.

Lemma substring_slice_from (s : string) : forall n m,
  substring n m s ++ slice_from (n + m) s = slice_from n s.
Proof.
  induction s as [|c s IH]; intros n m.
  - destruct n, m; reflexivity.
  - destruct n as [|n].
    + destruct m as [|m]; simpl.
      * reflexivity.
      * f_equal. rewrite <- (slice_from_0 s) at 2. apply (IH 0 m).
    + simpl. apply IH.
Qed.

Lemma slice_then_rest (s : string) (a b : nat) :
  a <= b -> slice a b s ++ slice_from b s = slice_from a s.
Proof.
  intros Hab. unfold slice.
  replace b with (a + (b - a)) at 2 by lia.
  apply substring_slice_from.
Qed.

Lemma slice_empty (s : string) (a : nat) : slice a a s = "".
Proof.
  unfold slice. rewrite Nat.sub_diag.
  revert a. induction s as [|c s IH]; intros [|a]; simpl; auto.
Qed.

Lemma append_nil_r (s : string) : s ++ "" = s.
Proof. induction s; simpl; congruence. Qed.

Lemma append_assoc (a b c : string) : (a ++ b) ++ c = a ++ b ++ c.
Proof. induction a; simpl; congruence. Qed.

Lemma append_length (a b : string) :
  String.length (a ++ b) = String.length a + String.length b.
Proof. induction a; simpl; congruence. Qed.

Lemma slice_from_length (s : string) : forall a,
  String.length (slice_from a s) = String.length s - a.
Proof.
  induction s as [|c s IH]; intros [|a]; simpl; auto.
Qed.

Lemma substring_length (s : string) : forall n m,
  n + m <= String.length s -> String.length (substring n m s) = m.
Proof.
  induction s as [|c s IH]; intros n m H; simpl in H.
  - destruct n, m; simpl; lia.
  - destruct n as [|n].
    + destruct m as [|m]; simpl; [reflexivity|].
      f_equal. apply IH. simpl. lia.
    + simpl. apply IH. lia.
Qed.

Lemma slice_length (s : string) (a b : nat) :
  a <= b -> b <= String.length s -> String.length (slice a b s) = b - a.
Proof. intros Hab Hb. unfold slice. apply substring_length. lia. Qed.

Lemma char_at_slice_from (s : string) : forall i c r,
  slice_from i s = String c r -> char_at s i = String c "".
Proof.
  unfold char_at.
  induction s as [|x s IH]; intros [|i] c r H; simpl in *; try discriminate.
  - injection H as Hx Hs. subst x s. destruct r; reflexivity.
  - eapply IH; eauto.
Qed.

Lemma slice_from_char_at (s : string) : forall i c,
  char_at s i = String c "" -> exists r, slice_from i s = String c r.
Proof.
  unfold char_at.
  induction s as [|x s IH]; intros [|i] c H; simpl in *; try discriminate.
  - exists s. injection H as Hx. subst x. reflexivity.
  - eapply IH; eauto.
Qed.

Lemma slice_next (s : string) : forall i c r,
  slice_from i s = String c r -> slice_from (S i) s = r.
Proof.
  induction s as [|x s IH]; intros [|i] c r H; simpl in *; try discriminate.
  - injection H as Hx Hs. subst x s. apply slice_from_0.
  - eapply IH; eauto.
Qed.

Lemma substring_of_slice_from (s : string) : forall i m,
  substring i m s = substring 0 m (slice_from i s).
Proof.
  induction s as [|x s IH]; intros [|i] m; simpl; auto.
  - destruct m; reflexivity.
Qed.

End StringFacts.

(** ** The pattern explainer *)

Section ExplainerFacts.
Import PyStr Explainer.

Lemma take_digits_app (m rest : string) :
  all_digits m = true -> starts_with_digit rest = false ->
  take_digits (m ++ rest) = (m, rest).
Proof.
  intros Hm Hrest. induction m as [|c m IH];
    cbn [take_digits append all_digits starts_with_digit] in *.
  - destruct rest as [|c r]; [reflexivity|].
    cbn [take_digits starts_with_digit] in *. rewrite Hrest. reflexivity.
  - apply andb_true_iff in Hm as [Hc Hm].
    rewrite Hc, (IH Hm). reflexivity.
Qed.

Lemma take_digits_spec (s : string) :
  forall ds tl, take_digits s = (ds, tl) ->
  s = ds ++ tl /\ all_digits ds = true /\ starts_with_digit tl = false.
Proof.
  induction s as [|c s IH]; intros ds tl H; cbn [take_digits] in H.
  - inversion H; subst. auto.
  - destruct (is_digit c) eqn:Hc.
    + destruct (take_digits s) as [ds' tl'] eqn:Hs.
      inversion H; subst. destruct (IH _ _ eq_refl) as (-> & Hd & Ht).
      cbn [append all_digits]. rewrite Hc. auto.
    + inversion H; subst. cbn [append all_digits starts_with_digit]. auto.
Qed.

Lemma eqb_empty_false (s : string) : s <> "" -> (s =? "") = false.
Proof. intros H. apply String.eqb_neq. exact H. Qed.

Lemma match_brace_exactly (m rest : string) :
  digits m ->
  match_brace ("{" ++ m ++ "}" ++ rest)
  = Some {| group0 := "{" ++ m ++ "}"; g1 := m; g2 := None; g3 := None |}.
Proof.
  intros [Hne Hd].
  change ("{" ++ m ++ "}" ++ rest) with (String "{" (m ++ String "}" rest)).
  unfold match_brace. cbv beta iota.
  rewrite (take_digits_app m (String "}" rest) Hd eq_refl).
  rewrite (eqb_empty_false Hne). reflexivity.
Qed.

Lemma match_brace_at_least (m rest : string) :
  digits m ->
  match_brace ("{" ++ m ++ ",}" ++ rest)
  = Some {| group0 := "{" ++ m ++ ",}"; g1 := m;
            g2 := Some ","; g3 := None |}.
Proof.
  intros [Hne Hd].
  change ("{" ++ m ++ ",}" ++ rest)
    with (String "{" (m ++ String "," (String "}" rest))).
  unfold match_brace. cbv beta iota.
  rewrite (take_digits_app m (String "," (String "}" rest)) Hd eq_refl).
  rewrite (eqb_empty_false Hne). reflexivity.
Qed.

Lemma match_brace_between (m n rest : string) :
  digits m -> digits n ->
  match_brace ("{" ++ m ++ "," ++ n ++ "}" ++ rest)
  = Some {| group0 := "{" ++ m ++ "," ++ n ++ "}"; g1 := m;
            g2 := Some ","; g3 := Some n |}.
Proof.
  intros [Hne Hd] [Hne' Hd'].
  change ("{" ++ m ++ "," ++ n ++ "}" ++ rest)
    with (String "{" (m ++ String "," (n ++ String "}" rest))).
  unfold match_brace. cbv beta iota.
  rewrite (take_digits_app m (String "," (n ++ String "}" rest)) Hd eq_refl).
  rewrite (eqb_empty_false Hne). cbv beta iota.
  rewrite (take_digits_app n (String "}" rest) Hd' eq_refl).
  rewrite (eqb_empty_false Hne'). reflexivity.
Qed.

(** Whenever the brace pattern matches, the string has one of the three
    shapes, and the groups are the ones of that shape. *)
Lemma match_brace_sound (s : string) (bm : brace_match) :
  match_brace s = Some bm ->
  brace_shape s
  /\ 0 < String.length (group0 bm)
  /\ exists rest, s = group0 bm ++ rest.
Proof.
  unfold match_brace. destruct s as [|c r0]; [discriminate|].
  destruct (Ascii.eqb c "{"%char) eqn:Hc.
  2:{ intros H. exfalso. revert H. clear -Hc.
      destruct c as [[] [] [] [] [] [] [] []]; try discriminate. }
  apply Ascii.eqb_eq in Hc; subst c.
  destruct (take_digits r0) as [d1 r1] eqn:H1.
  destruct (take_digits_spec _ H1) as (-> & Hd1 & Hs1).
  destruct (d1 =? "") eqn:Hne1; [discriminate|].
  apply String.eqb_neq in Hne1.
  assert (Hcomma : forall c2 r2,
    match r1 with String ","%char r => (Some ",", r) | _ => (None, r1) end
    = (c2, r2) ->
    r1 = opt_str c2 ++ r2 /\ (c2 = None \/ c2 = Some ",")
    /\ (c2 = None -> starts_with_digit r2 = false)).
  { intros c2 r2 H. destruct r1 as [|x r]; [inversion H; auto|].
    destruct (Ascii.eqb x ","%char) eqn:Hx.
    - apply Ascii.eqb_eq in Hx; subst x. inversion H; subst. simpl.
      repeat split; auto. discriminate.
    - assert (H' : (None (A:=string), String x r) = (c2, r2)).
      { revert H. clear -Hx.
        destruct x as [[] [] [] [] [] [] [] []]; auto; discriminate. }
      inversion H'; subst. auto. }
  destruct (match r1 with String ","%char r => (Some ",", r) | _ => (None, r1) end)
    as [c2 r2].
  destruct (Hcomma _ _ eq_refl) as (-> & Hc2 & Hnd). clear Hcomma.
  destruct (take_digits r2) as [d3 r3] eqn:H3.
  destruct (take_digits_spec _ H3) as (-> & Hd3 & Hs3).
  destruct r3 as [|c3 r4]; [discriminate|].
  destruct (Ascii.eqb c3 "}"%char) eqn:Hc3.
  2:{ intros H. exfalso. revert H. clear -Hc3.
      destruct c3 as [[] [] [] [] [] [] [] []]; try discriminate. }
  apply Ascii.eqb_eq in Hc3; subst c3.
  intros H. inversion H; subst; clear H. simpl.
  split; [|split; [lia|]].
  - destruct Hc2 as [-> | ->]; simpl.
    + (* no comma: the second run of digits is empty *)
      assert (d3 = "") as ->.
      { specialize (Hnd eq_refl). destruct d3 as [|x d3]; [reflexivity|].
        simpl in Hnd, Hd3. apply andb_true_iff in Hd3 as [Hx _]. congruence. }
      simpl. apply (shape_exactly (m:=d1) r4). split; assumption.
    + destruct (d3 =? "") eqn:Hne3.
      * apply String.eqb_eq in Hne3; subst d3. simpl.
        apply (shape_at_least (m:=d1) r4). split; assumption.
      * apply String.eqb_neq in Hne3.
        apply (shape_between (m:=d1) (n:=d3) r4); split; assumption.
  - exists r4.
    assert (Hopt : opt_str (if d3 =? "" then None else Some d3) = d3).
    { destruct (d3 =? "") eqn:E; [|reflexivity].
      apply String.eqb_eq in E; subst; reflexivity. }
    rewrite Hopt. f_equal. rewrite !append_assoc. reflexivity.
Qed.

Lemma match_brace_none (s : string) :
  ~ brace_shape s -> match_brace s = None.
Proof.
  intros H. destruct (match_brace s) as [bm|] eqn:Hm; [|reflexivity].
  exfalso. apply H. eapply match_brace_sound; eauto.
Qed.

(** *** One loop iteration, branch by branch *)

Lemma explain_step_advances (pattern : string) (i : nat) :
  i < snd (explain_step pattern i).
Proof.
  unfold explain_step, explain_single, explain_rest.
  repeat match goal with
         | |- context [match match_brace ?s with _ => _ end] =>
             let Hm := fresh "Hm" in
             destruct (match_brace s) eqn:Hm;
             [apply match_brace_sound in Hm; destruct Hm as (_ & Hm & _)|]
         | |- context [if ?b then _ else _] => destruct b
         end; simpl; lia.
Qed.

(** The recursion is the [while] loop: one more iteration while the
    cursor is inside the pattern, the accumulated list otherwise. *)
Lemma explain_loop_while (pattern : string) (i : nat) (acc : list string) :
  explain_loop pattern i acc =
  if (i <? String.length pattern)%nat
  then explain_loop pattern (snd (explain_step pattern i))
         (acc ++ [fst (explain_step pattern i)])%list
  else acc.
Proof.
  rewrite explain_loop_equation_1.
  destruct (lt_dec i (String.length pattern)) as [Hlt|Hge].
  - rewrite explain_loop_clause_1_equation_1.
    assert (E : (i <? String.length pattern)%nat = true)
      by (apply Nat.ltb_lt; exact Hlt).
    rewrite E. reflexivity.
  - assert (E : (i <? String.length pattern)%nat = false)
      by (apply Nat.ltb_ge; lia).
    rewrite E. reflexivity.
Qed.

Lemma explain_loop_grows (pattern : string) :
  forall n i acc, String.length pattern - i <= n ->
  List.length acc + (if (i <? String.length pattern)%nat then 1 else 0)
  <= List.length (explain_loop pattern i acc)
  /\ List.length (explain_loop pattern i acc)
     <= List.length acc + (String.length pattern - i).
Proof.
  induction n as [|n IH]; intros i acc Hn; rewrite explain_loop_while.
  - assert (Hge : (i <? String.length pattern)%nat = false)
      by (apply Nat.ltb_ge; lia).
    rewrite Hge. lia.
  - destruct (i <? String.length pattern)%nat eqn:Hlt.
    + apply Nat.ltb_lt in Hlt.
      pose proof (explain_step_advances pattern i) as Hadv.
      destruct (IH (snd (explain_step pattern i))
                  (acc ++ [fst (explain_step pattern i)])%list) as [Hlo Hhi];
        [lia|].
      rewrite length_app in Hlo, Hhi. simpl in Hlo, Hhi. lia.
    + lia.
Qed.

Lemma explain_step_single (pattern : string) (i : nat) (c : ascii) :
  char_at pattern i = String c "" -> c <> "\"%char ->
  explain_step pattern i = explain_single pattern i (String c "").
Proof.
  intros Hc Hne. unfold explain_step. rewrite Hc.
  assert (E : (String c "" =? "\") = false).
  { apply String.eqb_neq. congruence. }
  rewrite E. reflexivity.
Qed.

Lemma explain_step_rest (pattern : string) (i : nat) (c : ascii) :
  char_at pattern i = String c "" ->
  in_chars (String c "") "\.^$*+?{" = false ->
  explain_step pattern i = explain_rest pattern i (String c "").
Proof.
  intros Hc Hin.
  cbn [in_chars] in Hin. repeat rewrite orb_false_iff in Hin.
  destruct Hin as (Hbs & Hdot & Hcaret & Hdollar & Hstar & Hplus & Hq & Hbrace & _).
  rewrite (explain_step_single pattern i Hc).
  2:{ intros ->. discriminate. }
  unfold explain_single, dict_mem, token_map, quantifier_map.
  cbn [dict_get in_chars].
  rewrite Hdot, Hcaret, Hdollar.
  assert (Hlen2 : forall k, (String c "" =? String "\" (String k "")) = false).
  { intros k. apply String.eqb_neq. congruence. }
  rewrite !Hlen2, Hstar, Hplus, Hq, Hbrace. reflexivity.
Qed.

Lemma explain_step_brace (pattern : string) (i : nat) :
  char_at pattern i = "{" ->
  explain_step pattern i =
  match match_brace (slice_from i pattern) with
  | Some m => (quantifier_desc m, i + String.length (group0 m))
  | None => (literal_desc "{", i + 1)
  end.
Proof.
  intros Hc. rewrite (explain_step_single pattern i Hc) by discriminate.
  reflexivity.
Qed.

(** C3: for every input string the scan terminates, because the cursor
    strictly increases in every loop iteration ([explain_loop] is the
    loop, defined by recursion on the distance to the end), and the
    result is a non-empty sequence of descriptions, of at most one
    description per character; for the empty pattern it is the single
    placeholder; a bare trailing backslash and an unrecognized symbol are
    described as literals. *)
Theorem explain_regex_total (pattern : string) :
  (forall i, i < snd (explain_step pattern i))
  /\ (forall i acc,
        explain_loop pattern i acc =
        if (i <? String.length pattern)%nat
        then explain_loop pattern (snd (explain_step pattern i))
               (acc ++ [fst (explain_step pattern i)])%list
        else acc)
  /\ explain_regex pattern <> []
  /\ 1 <= List.length (explain_regex pattern)
     <= Nat.max 1 (String.length pattern)
  /\ explain_regex "" = [empty_desc]
  /\ explain_regex "\" = [literal_desc "\"]
  /\ explain_regex "#~" = [literal_desc "#"; literal_desc "~"].
Proof.
  split; [apply explain_step_advances|].
  split; [apply explain_loop_while|].
  assert (Hlen : 1 <= List.length (explain_regex pattern)
                 <= Nat.max 1 (String.length pattern)).
  { unfold explain_regex.
    destruct (explain_loop_grows pattern (n:=String.length pattern) 0 [])
      as [_ Hhi]; [lia|].
    destruct (explain_loop pattern 0 []) as [|d ds];
      cbn [List.length] in *; lia. }
  split; [|split; [exact Hlen|repeat split; reflexivity]].
  intros E. rewrite E in Hlen. cbn [List.length] in Hlen. lia.
Qed.

(** The brace quantifier on patterns written below code point 256: at a
    position where the pattern continues with [{m}], [{m,}] or [{m,n}]
    (digits only) one iteration emits the one quantifier
    description of that shape and moves the cursor past the whole braced
    substring; at a brace that opens none of the three shapes it
    describes the brace alone as a literal and moves by one; and
    ["a{2,5}"] is explained as the literal [a] followed by one "between 2
    and 5 times" quantifier. *)
Theorem brace_quantifier_explained (pattern : string) (i : nat) :
  (forall m rest, digits m ->
     slice_from i pattern = "{" ++ m ++ "}" ++ rest ->
     explain_step pattern i =
     ("- **Quantifier** (`" ++ ("{" ++ m ++ "}")
        ++ "`): The preceding element must occur "
        ++ ("exactly " ++ m ++ " times") ++ ".",
      i + String.length ("{" ++ m ++ "}")))
  /\ (forall m rest, digits m ->
        slice_from i pattern = "{" ++ m ++ ",}" ++ rest ->
        explain_step pattern i =
        ("- **Quantifier** (`" ++ ("{" ++ m ++ ",}")
           ++ "`): The preceding element must occur "
           ++ ("at least " ++ m ++ " times") ++ ".",
         i + String.length ("{" ++ m ++ ",}")))
  /\ (forall m n rest, digits m -> digits n ->
        slice_from i pattern = "{" ++ m ++ "," ++ n ++ "}" ++ rest ->
        explain_step pattern i =
        ("- **Quantifier** (`" ++ ("{" ++ m ++ "," ++ n ++ "}")
           ++ "`): The preceding element must occur "
           ++ ("between " ++ m ++ " and " ++ n ++ " times") ++ ".",
         i + String.length ("{" ++ m ++ "," ++ n ++ "}")))
  /\ (char_at pattern i = "{" -> ~ brace_shape (slice_from i pattern) ->
      explain_step pattern i = (literal_desc "{", i + 1))
  /\ explain_regex "a{2,5}" =
     [ literal_desc "a";
       "- **Quantifier** (`{2,5}`): The preceding element must occur between 2 and 5 times." ].
Proof.
  repeat split.
  - intros m rest Hm Hs.
    rewrite (explain_step_brace pattern i (char_at_slice_from pattern i Hs)).
    rewrite Hs, (match_brace_exactly rest Hm). reflexivity.
  - intros m rest Hm Hs.
    rewrite (explain_step_brace pattern i (char_at_slice_from pattern i Hs)).
    rewrite Hs, (match_brace_at_least rest Hm). reflexivity.
  - intros m n rest Hm Hn Hs.
    rewrite (explain_step_brace pattern i (char_at_slice_from pattern i Hs)).
    rewrite Hs, (match_brace_between rest Hm Hn). reflexivity.
  - intros Hc Hshape.
    rewrite (explain_step_brace pattern i Hc), (match_brace_none Hshape).
    reflexivity.
Qed.

(** *** Group and set delimiters (lines 94-127) *)

Lemma explain_step_group_open (pattern : string) (i : nat) :
  char_at pattern i = "(" ->
  (slice i (i + 3) pattern = "(?:" ->
   explain_step pattern i = ("- " ++ non_capturing_desc, i + 3))
  /\ (slice i (i + 3) pattern <> "(?:" -> slice i (i + 2) pattern = "(?" ->
      explain_step pattern i = (lookaround_desc, i + 1))
  /\ (slice i (i + 3) pattern <> "(?:" -> slice i (i + 2) pattern <> "(?" ->
      explain_step pattern i = ("- " ++ capturing_desc, i + 1)).
Proof.
  intros Hc. rewrite (explain_step_rest pattern i Hc eq_refl).
  unfold explain_rest. change ("(" =? "(") with true. cbv iota.
  repeat split.
  - intros H3. rewrite H3. change ("(?:" =? "(?:") with true. cbv iota.
    f_equal. lia.
  - intros H3 H2. apply String.eqb_neq in H3. rewrite H3, H2. reflexivity.
  - intros H3 H2. apply String.eqb_neq in H3, H2. rewrite H3, H2. reflexivity.
Qed.

(** C5, the two group prefixes that are consumed whole: [(?:] gives the
    non-capturing description and moves the cursor by three, a bare [(]
    gives the capturing description and moves it by one. *)
Lemma group_prefix_consumed (pattern : string) (i : nat) :
  char_at pattern i = "(" ->
  (slice i (i + 3) pattern = "(?:" ->
   explain_step pattern i = ("- " ++ non_capturing_desc, i + 3))
  /\ (slice i (i + 3) pattern <> "(?:" -> slice i (i + 2) pattern <> "(?" ->
      explain_step pattern i = ("- " ++ capturing_desc, i + 1)).
Proof.
  intros Hc. destruct (explain_step_group_open pattern i Hc) as (H1 & _ & H3).
  split; assumption.
Qed.

(** C5, the lookaround prefix: the code emits the lookaround description
    and moves the cursor by one only, so the [?] of the prefix [(?] is
    described again, as a zero-or-one quantifier. *)
Theorem lookaround_prefix_redescribed :
  explain_step "(?=a)" 0 = (lookaround_desc, 1)
  /\ explain_step "(?=a)" 1 = ("- " ++ dict_index quantifier_map "?", 2)
  /\ explain_regex "(?=a)" =
     [ lookaround_desc;
       "- **Zero or One** (`?`): The preceding element can occur 0 or 1 time. It also makes a quantifier 'non-greedy'.";
       literal_desc "=";
       literal_desc "a";
       end_group_desc ].
Proof. repeat split; reflexivity. Qed.

(** At every lookaround prefix the cursor moves by one and the next
    iteration describes the [?]. *)
Lemma lookaround_prefix_general (pattern : string) (i : nat) :
  char_at pattern i = "(" -> char_at pattern (i + 1) = "?" ->
  slice i (i + 3) pattern <> "(?:" -> slice i (i + 2) pattern = "(?" ->
  explain_step pattern i = (lookaround_desc, i + 1)
  /\ explain_step pattern (i + 1)
     = ("- " ++ dict_index quantifier_map "?", i + 1 + 1).
Proof.
  intros Hc Hq H3 H2. split.
  - apply (explain_step_group_open pattern i Hc); assumption.
  - rewrite (explain_step_single pattern (i + 1) Hq) by discriminate.
    reflexivity.
Qed.

(** C6 as stated fails: at a negated set [[^] the cursor moves by two. *)
Lemma negated_set_open_advances_two :
  ~ (forall pattern i,
       char_at pattern i = "[" -> snd (explain_step pattern i) = i + 1).
Proof.
  intros H. specialize (H "[^a]" 0 eq_refl). discriminate H.
Qed.

(** C6 amended: a bare group-close, an alternation bar, a set-close and a
    set-open not followed by [^] give their fixed description and move the
    cursor by one; a set-open followed by [^] gives the negated-set
    description and moves the cursor by two, past the [^]. *)
Theorem fixed_delimiters_explained (pattern : string) (i : nat) :
  (char_at pattern i = ")" ->
   explain_step pattern i = (end_group_desc, i + 1))
  /\ (char_at pattern i = "|" ->
      explain_step pattern i = (alternation_desc, i + 1))
  /\ (char_at pattern i = "]" ->
      explain_step pattern i = (end_set_desc, i + 1))
  /\ (char_at pattern i = "[" -> slice (i + 1) (i + 2) pattern <> "^" ->
      explain_step pattern i = ("- " ++ set_desc, i + 1))
  /\ (char_at pattern i = "[" -> slice (i + 1) (i + 2) pattern = "^" ->
      explain_step pattern i = ("- " ++ negated_set_desc, i + 2)).
Proof.
  repeat split; intros Hc.
  - rewrite (explain_step_rest pattern i Hc eq_refl). reflexivity.
  - rewrite (explain_step_rest pattern i Hc eq_refl). reflexivity.
  - rewrite (explain_step_rest pattern i Hc eq_refl). reflexivity.
  - intros Hn. rewrite (explain_step_rest pattern i Hc eq_refl).
    unfold explain_rest. apply String.eqb_neq in Hn.
    change ("[" =? "(") with false. change ("[" =? ")") with false.
    change ("[" =? "|") with false. change ("[" =? "[") with true.
    cbv iota. rewrite Hn. reflexivity.
  - intros Hn. rewrite (explain_step_rest pattern i Hc eq_refl).
    unfold explain_rest.
    change ("[" =? "(") with false. change ("[" =? ")") with false.
    change ("[" =? "|") with false. change ("[" =? "[") with true.
    cbv iota. rewrite Hn. change ("^" =? "^") with true. cbv iota.
    f_equal. lia.
Qed.

End ExplainerFacts.

(** ** Escaping and the highlight wrappers *)

Section HtmlFacts.
Import PyStr Html.

Lemma replace_char_app (old : ascii) (new a b : string) :
  replace_char old new (a ++ b)
  = replace_char old new a ++ replace_char old new b.
Proof.
  induction a as [|c a IH]; simpl; [reflexivity|].
  destruct (Ascii.eqb c old); rewrite IH; [|reflexivity].
  symmetry. apply append_assoc.
Qed.

Lemma escape_app (a b : string) : escape (a ++ b) = escape a ++ escape b.
Proof. unfold escape. rewrite !replace_char_app. reflexivity. Qed.

Lemma escape_single (c : ascii) : escape (String c "") = escape_char c.
Proof. destruct c as [[] [] [] [] [] [] [] []]; reflexivity. Qed.

(** [escape] works character by character. *)
Lemma escape_cons (c : ascii) (s : string) :
  escape (String c s) = escape_char c ++ escape s.
Proof.
  change (String c s) with (String c "" ++ s).
  rewrite escape_app, escape_single. reflexivity.
Qed.

Lemma unescape_escape_char (c : ascii) (r : string) :
  unescape_from 0 (escape_char c ++ r) = String c (unescape_from 0 r).
Proof. destruct c as [[] [] [] [] [] [] [] []]; reflexivity. Qed.

Lemma unescape_escape (s : string) : unescape (escape s) = s.
Proof.
  unfold unescape. induction s as [|c s IH]; [reflexivity|].
  rewrite escape_cons, unescape_escape_char, IH. reflexivity.
Qed.

Lemma string_forall_app (f : ascii -> bool) (a b : string) :
  string_forall f (a ++ b) = string_forall f a && string_forall f b.
Proof.
  induction a as [|c a IH]; simpl; [reflexivity|].
  rewrite IH. apply andb_assoc.
Qed.

Lemma escape_char_no_delimiter (c : ascii) :
  string_forall no_delimiter (escape_char c) = true.
Proof. destruct c as [[] [] [] [] [] [] [] []]; reflexivity. Qed.

(** No angle bracket and no quote survives escaping. *)
Lemma escape_no_delimiter (s : string) :
  string_forall no_delimiter (escape s) = true.
Proof.
  induction s as [|c s IH]; [reflexivity|].
  rewrite escape_cons, string_forall_app, escape_char_no_delimiter, IH.
  reflexivity.
Qed.

Lemma starts_with_app (w r : string) : starts_with w (w ++ r) = true.
Proof.
  induction w as [|c w IH]; simpl; [reflexivity|].
  rewrite Ascii.eqb_refl. exact IH.
Qed.

Lemma starts_with_head_differs (a c : ascii) (w r : string) :
  a <> c -> starts_with (String a w) (String c r) = false.
Proof.
  intros H. simpl. apply Ascii.eqb_neq in H. rewrite H. reflexivity.
Qed.

Lemma no_delimiter_not_lt (c : ascii) :
  no_delimiter c = true -> "<"%char <> c.
Proof. intros H E. subst c. discriminate H. Qed.

Lemma strip_from_keep (color : string) (c : ascii) (r : string) :
  no_delimiter c = true ->
  strip_from color 0 (String c r) = String c (strip_from color 0 r).
Proof.
  intros Hc. apply no_delimiter_not_lt in Hc.
  cbn [strip_from wrappers find].
  change div_open with (String "<" (substring 1 (String.length div_open) div_open)).
  change div_close with (String "<" "/div>").
  change mark_close with (String "<" "/mark>").
  change (mark_open color)
    with (String "<" ("mark style=" ++ dquote ++ "background-color:"
                        ++ color ++ ";" ++ dquote ++ ">")).
  rewrite !(starts_with_head_differs _ _ Hc). reflexivity.
Qed.

Lemma strip_from_text (color : string) (u r : string) :
  string_forall no_delimiter u = true ->
  strip_from color 0 (u ++ r) = u ++ strip_from color 0 r.
Proof.
  induction u as [|c u IH]; intros Hu; [reflexivity|].
  simpl in Hu. apply andb_true_iff in Hu as [Hc Hu].
  change (String c u ++ r) with (String c (u ++ r)).
  rewrite (strip_from_keep color c (u ++ r) Hc), (IH Hu). reflexivity.
Qed.

Lemma strip_from_skip (color : string) (u r : string) :
  strip_from color (String.length u) (u ++ r) = strip_from color 0 r.
Proof.
  induction u as [|c u IH]; [reflexivity|]. simpl. exact IH.
Qed.

(** A wrapper at the head of the string is deleted whole. *)
Lemma strip_from_wrapper (color : string) (w r : string) :
  In w (wrappers color) ->
  strip_from color 0 (w ++ r) = strip_from color 0 r.
Proof.
  intros Hw.
  assert (Hfind : find (fun w0 => starts_with w0 (w ++ r)) (wrappers color) = Some w
                  /\ exists w', w = String "<" w').
  { unfold wrappers in *. simpl in Hw.
    destruct Hw as [<-|[<-|[<-|[<-|[]]]]]; cbn [find].
    - rewrite starts_with_app. split; [reflexivity|eexists; reflexivity].
    - change (starts_with div_open (div_close ++ r)) with false.
      rewrite starts_with_app. split; [reflexivity|eexists; reflexivity].
    - change (starts_with div_open (mark_open color ++ r)) with false.
      change (starts_with div_close (mark_open color ++ r)) with false.
      rewrite starts_with_app. split; [reflexivity|eexists; reflexivity].
    - change (starts_with div_open (mark_close ++ r)) with false.
      change (starts_with div_close (mark_close ++ r)) with false.
      change (starts_with (mark_open color) (mark_close ++ r)) with false.
      rewrite starts_with_app. split; [reflexivity|eexists; reflexivity]. }
  destruct Hfind as [Hfind [w' ->]].
  change (String "<" w' ++ r) with (String "<" (w' ++ r)) in *.
  cbn [strip_from]. rewrite Hfind.
  change (String.length (String "<" w') - 1) with (String.length w' - 0).
  rewrite Nat.sub_0_r. apply strip_from_skip.
Qed.

End HtmlFacts.

(** ** The live highlighter *)

Section HighlightFacts.
Import PyStr Html Regex Session.

Variables text color : string.


Lemma renders_empty : renders color "" "".
Proof. intros r. reflexivity. Qed.

Lemma renders_escape (out plain seg : string) :
  renders color out plain -> renders color (out ++ escape seg) (plain ++ seg).
Proof.
  intros H r. rewrite append_assoc, H, escape_app, append_assoc.
  f_equal. apply strip_from_text, escape_no_delimiter.
Qed.

Lemma renders_wrapper (out plain w : string) :
  In w (wrappers color) -> renders color out plain -> renders color (out ++ w) plain.
Proof.
  intros Hw H r. rewrite append_assoc, H. f_equal.
  apply strip_from_wrapper, Hw.
Qed.

Lemma mark_open_wrapper : In (mark_open color) (wrappers color).
Proof. unfold wrappers. simpl. auto. Qed.

Lemma mark_close_wrapper : In mark_close (wrappers color).
Proof. unfold wrappers. simpl. auto. Qed.

(** The cursor walk keeps the invariant: what has been emitted is markup
    for the text before the cursor. *)
Lemma highlight_loop_renders (matches : list re_match) :
  forall last_end out,
    spans_ordered last_end matches ->
    renders color out (slice 0 last_end text) ->
    renders color (fst (highlight_loop text color matches last_end out))
      (slice 0 (snd (highlight_loop text color matches last_end out)) text).
Proof.
  induction matches as [|m rest IH]; intros last_end out Hord Hout.
  - exact Hout.
  - destruct Hord as (Hs & He & Hrest). cbn [highlight_loop].
    apply IH; [exact Hrest|].
    rewrite <- (slice_join text (a:=0) (b:=m_start m) (c:=m_end m))
      by lia.
    rewrite <- (slice_join text (a:=0) (b:=last_end) (c:=m_start m))
      by lia.
    rewrite <- !append_assoc.
    apply renders_wrapper; [apply mark_close_wrapper|].
    apply renders_escape.
    apply renders_wrapper; [apply mark_open_wrapper|].
    apply renders_escape. exact Hout.
Qed.

Lemma highlight_markup_stripped (matches : list re_match) :
  matches <> [] -> spans_ordered 0 matches ->
  strip_wrappers color (highlight_markup text color matches) = escape text.
Proof.
  intros Hne Hord. unfold highlight_markup, strip_wrappers.
  destruct matches as [|m rest]; [congruence|].
  assert (Hstart : renders color "" (slice 0 0 text))
    by (rewrite slice_empty; apply renders_empty).
  pose proof (@highlight_loop_renders (m :: rest) 0 "" Hord Hstart) as Hloop.
  destruct (highlight_loop text color (m :: rest) 0 "") as [out last_end].
  cbn [fst snd] in Hloop.
  assert (Htext : slice 0 last_end text ++ slice_from last_end text = text).
  { rewrite slice_then_rest by lia. apply slice_from_0. }
  pose proof (renders_escape (slice_from last_end text) Hloop) as Hall.
  rewrite Htext in Hall.
  rewrite strip_from_wrapper by (unfold wrappers; simpl; auto).
  rewrite Hall.
  rewrite <- (append_nil_r div_close).
  rewrite strip_from_wrapper by (unfold wrappers; simpl; auto).
  apply append_nil_r.
Qed.

End HighlightFacts.

Section HighlightClaims.
Import PyStr Html Regex Session.

(** C1 as stated fails on the empty list of matches: the highlighter
    then shows the "No matches found." placeholder, from which the text
    cannot be read back. *)
Lemma roundtrip_fails_without_matches :
  ~ (forall text color matches,
       spans_ordered 0 matches ->
       unescape (strip_wrappers color (highlight_markup text color matches))
       = text).
Proof.
  intros H. specialize (H "a<b" "yellow" [] I). discriminate H.
Qed.

(** C1 amended: for every text and every non-empty list of ordered,
    non-overlapping match spans, the markup with the wrappers removed is
    the escaped text, so every character inside and outside the matches
    went through [escape]; unescaping it gives the text back; and the
    escaped text holds no angle bracket and no quote. *)
Theorem highlight_roundtrip (text color : string) (matches : list re_match)
  (Hne : matches <> []) (Hord : spans_ordered 0 matches) :
  strip_wrappers color (highlight_markup text color matches) = escape text
  /\ unescape (strip_wrappers color (highlight_markup text color matches))
     = text
  /\ string_forall no_delimiter (escape text) = true.
Proof.
  rewrite (highlight_markup_stripped text color Hne Hord).
  repeat split.
  - apply unescape_escape.
  - apply escape_no_delimiter.
Qed.

Lemma highlight_roundtrip_witness :
  let text := "if a<b & c>'d' then" in
  let matches := [ {| m_start := 3; m_end := 6; m_groups := [] |};
                   {| m_start := 9; m_end := 9; m_groups := [] |};
                   {| m_start := 9; m_end := 14; m_groups := [] |} ] in
  unescape (strip_wrappers "yellow" (highlight_markup text "yellow" matches))
  = text.
Proof.
  cbv zeta.
  refine (proj1 (proj2 (@highlight_roundtrip _ "yellow" _ _ _))).
  - discriminate.
  - simpl. lia.
Defined.

End HighlightClaims.

(** ** Non-overlapping find and substitution *)

Section RegexFacts.
Import PyStr Regex.

Variable cp : pattern_obj.
Variable text : string.
Hypothesis in_bounds : search_in_bounds cp.

Lemma scan_ordered : forall fuel pos ma,
  spans_ordered pos (scan cp text fuel pos ma).
Proof.
  induction fuel as [|fuel IH]; intros pos ma; cbn [scan]; [exact I|].
  destruct (search cp text pos ma) as [m|] eqn:Hm; [|exact I].
  destruct (in_bounds _ _ _ Hm) as (Hs & He & _).
  cbn [spans_ordered]. auto.
Qed.

Lemma scan_within : forall fuel pos ma,
  Forall (span_within (String.length text)) (scan cp text fuel pos ma).
Proof.
  induction fuel as [|fuel IH]; intros pos ma; cbn [scan]; [constructor|].
  destruct (search cp text pos ma) as [m|] eqn:Hm; [|constructor].
  destruct (in_bounds _ _ _ Hm) as (Hs & He & Hl).
  constructor; [split; assumption|apply IH].
Qed.

(** The fuel of [finditer] is never used up: with the two guarantees of
    a search, more fuel finds the same matches. *)
Lemma scan_fuel_enough (advances : search_advances cp) :
  forall (fuel pos : nat) (ma : bool),
  pos <= String.length text ->
  2 * (String.length text - pos) + (if ma then 0 else 1) < fuel ->
  scan cp text (S fuel) pos ma = scan cp text fuel pos ma.
Proof.
  induction fuel as [|fuel IH]; intros pos ma Hpos Hfuel; [lia|].
  cbn [scan].
  destruct (search cp text pos ma) as [m|] eqn:Hm; [|reflexivity].
  f_equal.
  destruct (in_bounds _ _ _ Hm) as (Hs & He & Hl).
  change (scan cp text (S fuel) (m_end m) (m_end m =? m_start m)%nat
          = scan cp text fuel (m_end m) (m_end m =? m_start m)%nat).
  apply IH; [exact Hl|].
  destruct ma.
  - pose proof (advances _ _ _ Hm) as Hadv.
    destruct (m_end m =? m_start m)%nat; lia.
  - destruct (m_end m =? m_start m)%nat eqn:Hempty.
    + apply Nat.eqb_eq in Hempty. lia.
    + apply Nat.eqb_neq in Hempty. lia.
Qed.

Lemma finditer_fuel_enough (advances : search_advances cp) (extra : nat) :
  scan cp text (2 * String.length text + 2 + extra) 0 false
  = finditer cp text.
Proof.
  unfold finditer. induction extra as [|extra IH].
  - rewrite Nat.add_0_r. reflexivity.
  - rewrite <- IH. rewrite Nat.add_succ_r.
    apply scan_fuel_enough; [exact advances|lia|lia].
Qed.

Lemma finditer_ordered : spans_ordered 0 (finditer cp text).
Proof. apply scan_ordered. Qed.

Lemma finditer_within :
  Forall (span_within (String.length text)) (finditer cp text).
Proof. apply scan_within. Qed.

Lemma spans_ordered_consecutive (matches : list re_match) :
  forall last_end i m1 m2,
    spans_ordered last_end matches ->
    nth_error matches i = Some m1 -> nth_error matches (S i) = Some m2 ->
    m_start m1 <= m_start m2 /\ m_end m1 <= m_start m2.
Proof.
  induction matches as [|m rest IH]; intros last_end i m1 m2 Hord H1 H2.
  - destruct i; discriminate.
  - destruct Hord as (Hs & He & Hrest). destruct i as [|i].
    + simpl in H1, H2. inversion H1; subst m1.
      destruct rest as [|m' rest']; [discriminate|].
      simpl in H2. inversion H2; subst m2.
      destruct Hrest as (Hs' & _). lia.
    + simpl in H1. change (nth_error rest (S i) = Some m2) in H2.
      eapply IH; eauto.
Qed.

(** *** Substitution with the empty template *)

Lemma sub_loop_outside (matches : list re_match) : forall last_end out,
  fst (sub_loop cp "" text matches last_end out)
    ++ slice_from (snd (sub_loop cp "" text matches last_end out)) text
  = out ++ text_outside text last_end matches.
Proof.
  induction matches as [|m rest IH]; intros last_end out;
    cbn [sub_loop text_outside fst snd]; [reflexivity|].
  rewrite IH. unfold replacement. cbn [has_backslash].
  rewrite append_nil_r. apply append_assoc.
Qed.

Lemma sub_empty_template :
  sub cp "" text = inr (text_outside text 0 (finditer cp text)).
Proof.
  unfold sub. cbn [has_backslash].
  pose proof (sub_loop_outside (finditer cp text) 0 "") as H.
  destruct (sub_loop cp "" text (finditer cp text) 0 "") as [out last_end].
  cbn [fst snd] in H. rewrite H. reflexivity.
Qed.

Lemma text_outside_length (matches : list re_match) : forall last_end,
  spans_ordered last_end matches ->
  Forall (span_within (String.length text)) matches ->
  last_end <= String.length text ->
  String.length (text_outside text last_end matches) + covered matches
  = String.length text - last_end.
Proof.
  induction matches as [|m rest IH]; intros last_end Hord Hin Hlast;
    cbn [text_outside covered].
  - rewrite slice_from_length. lia.
  - destruct Hord as (Hs & He & Hrest).
    inversion Hin as [|? ? [_ Hl] Hin']; subst.
    rewrite append_length, slice_length by lia.
    specialize (IH (m_end m) Hrest Hin' Hl). lia.
Qed.

Lemma text_outside_nothing_covered (matches : list re_match) : forall last_end,
  spans_ordered last_end matches -> covered matches = 0 ->
  text_outside text last_end matches = slice_from last_end text.
Proof.
  induction matches as [|m rest IH]; intros last_end Hord Hcov;
    cbn [text_outside covered] in *; [reflexivity|].
  destruct Hord as (Hs & He & Hrest).
  rewrite (IH (m_end m) Hrest) by lia.
  replace (m_end m) with (m_start m) by lia.
  apply slice_then_rest. exact Hs.
Qed.

End RegexFacts.

(** ** The literal engine keeps the guarantees of a search *)

Section LiteralEngineFacts.
Import PyStr Regex LiteralEngine.

Lemma starts_with_length (w s : string) :
  starts_with w s = true -> String.length w <= String.length s.
Proof.
  revert s. induction w as [|a w IH]; intros s H; simpl; [lia|].
  destruct s as [|b s]; [discriminate|]. simpl in H.
  apply andb_true_iff in H as [_ H]. apply IH in H. simpl. lia.
Qed.

Lemma find_at_bounds (needle rest : string) : forall start s,
  find_at needle rest start = Some s ->
  start <= s /\ s + String.length needle <= start + String.length rest.
Proof.
  induction rest as [|c rest IH]; intros start s H; cbn [find_at] in H.
  - destruct (starts_with needle "") eqn:Hp; [|discriminate].
    apply starts_with_length in Hp. inversion H; subst. simpl in *. lia.
  - destruct (starts_with needle (String c rest)) eqn:Hp.
    + apply starts_with_length in Hp. inversion H; subst. lia.
    + apply IH in H. simpl. lia.
Qed.

Lemma lower_length (s : string) : String.length (lower s) = String.length s.
Proof. induction s; simpl; congruence. Qed.

Lemma fold_case_length (flags : N) (s : string) :
  String.length (fold_case flags s) = String.length s.
Proof. unfold fold_case. destruct (N.testbit flags 1); auto using lower_length. Qed.

Lemma literal_search_spec (flags : N) (needle text : string) (pos : nat)
  (ma : bool) (m : re_match) :
  literal_search flags needle text pos ma = Some m ->
  (if ma && (needle =? "") then S pos else pos) <= m_start m
  /\ m_end m = m_start m + String.length needle
  /\ m_end m <= String.length text.
Proof.
  unfold literal_search.
  set (start := if ma && (needle =? "") then S pos else pos).
  destruct (String.length text <? start)%nat eqn:Hlen; [discriminate|].
  apply Nat.ltb_ge in Hlen.
  destruct (find_at _ _ start) as [s|] eqn:Hfind; [|discriminate].
  intros H. inversion H; subst; clear H. cbn [m_start m_end].
  apply find_at_bounds in Hfind.
  rewrite !fold_case_length, slice_from_length in Hfind. lia.
Qed.

Lemma literal_in_bounds (flags : N) (needle : string) :
  search_in_bounds (literal flags needle).
Proof.
  intros text pos ma m H. cbn [literal search] in H.
  apply literal_search_spec in H. destruct H as (Hs & He & Hl).
  destruct (ma && (needle =? "")); lia.
Qed.

Lemma literal_advances (flags : N) (needle : string) :
  search_advances (literal flags needle).
Proof.
  intros text pos m H. cbn [literal search] in H.
  apply literal_search_spec in H. destruct H as (Hs & He & Hl).
  cbn [andb] in Hs. destruct (needle =? "") eqn:Hn; [lia|].
  apply String.eqb_neq in Hn. destruct needle; [congruence|]. simpl in He. lia.
Qed.

End LiteralEngineFacts.

Section RegexClaims.
Import PyStr Regex LiteralEngine.

(** C2: whatever the pattern and the text, the matches that
    non-overlapping left-to-right find yields are ordered by ascending
    start offset, consecutive matches satisfy
    [match[i].end <= match[i+1].start], and every span lies inside the
    text: the cursor of the highlighter never moves backward. *)
Theorem finditer_spans_ordered (cp : pattern_obj) (text : string)
  (Hbounds : search_in_bounds cp) :
  spans_ordered 0 (finditer cp text)
  /\ (forall i m1 m2,
        nth_error (finditer cp text) i = Some m1 ->
        nth_error (finditer cp text) (S i) = Some m2 ->
        m_start m1 <= m_start m2 /\ m_end m1 <= m_start m2)
  /\ Forall (span_within (String.length text)) (finditer cp text).
Proof.
  pose proof (finditer_ordered text Hbounds) as Hord.
  split; [exact Hord|]. split.
  - intros i m1 m2. apply spans_ordered_consecutive with (last_end := 0).
    exact Hord.
  - apply finditer_within. exact Hbounds.
Qed.

Lemma finditer_spans_ordered_witness :
  finditer (literal 2 "AB") "xabxxaBab"
  = [ {| m_start := 1; m_end := 3; m_groups := [] |};
      {| m_start := 5; m_end := 7; m_groups := [] |};
      {| m_start := 7; m_end := 9; m_groups := [] |} ]
  /\ spans_ordered 0 (finditer (literal 2 "AB") "xabxxaBab").
Proof.
  split; [reflexivity|].
  exact (proj1 (finditer_spans_ordered "xabxxaBab"
                  (literal_in_bounds 2 "AB"))).
Defined.

(** C7 as stated fails: removing the matches of [ab] from ["aaabbb"]
    gives ["aabb"], a second run gives ["ab"]: the text changed, yet
    each of the three texts holds exactly one match. *)
Lemma sub_rerun_keeps_match_count :
  ~ (forall (cp : pattern_obj) (text t1 t2 : string),
       search_in_bounds cp -> search_advances cp ->
       sub cp "" text = inr t1 -> sub cp "" t1 = inr t2 ->
       t2 = t1
       \/ List.length (finditer cp t2) < List.length (finditer cp text)
       \/ List.length (finditer cp t1) < List.length (finditer cp text)).
Proof.
  intros H.
  specialize (H (literal 2 "ab") "aaabbb" "aabb" "ab"
                (literal_in_bounds 2 "ab") (literal_advances 2 "ab")
                eq_refl eq_refl).
  destruct H as [H|[H|H]].
  - discriminate H.
  - vm_compute in H. lia.
  - vm_compute in H. lia.
Qed.

(** C7 amended: substituting the empty template gives the text with
    every non-overlapping match cut out, shorter by the number of
    characters the matches cover; running the same substitution on the
    result gives the identical text when no non-empty match is left in
    it, and a strictly shorter text otherwise (the number of matches
    need not go down). *)
Theorem sub_empty_removes_matches (cp : pattern_obj) (text : string)
  (Hbounds : search_in_bounds cp) :
  let t1 := text_outside text 0 (finditer cp text) in
  let t2 := text_outside t1 0 (finditer cp t1) in
  sub cp "" text = inr t1
  /\ sub cp "" t1 = inr t2
  /\ String.length t1 + covered (finditer cp text) = String.length text
  /\ (covered (finditer cp t1) = 0 -> t2 = t1)
  /\ (covered (finditer cp t1) <> 0 -> String.length t2 < String.length t1)
  /\ (t2 = t1 \/ String.length t2 < String.length t1).
Proof.
  intros t1 t2.
  assert (Hlen : forall t,
    String.length (text_outside t 0 (finditer cp t)) + covered (finditer cp t)
    = String.length t).
  { intros t. pose proof (finditer_ordered t Hbounds) as Hord.
    pose proof (finditer_within t Hbounds) as Hin.
    pose proof (@text_outside_length t (finditer cp t) 0 Hord Hin
                  (Nat.le_0_l _)) as H.
    lia. }
  assert (Hsame : covered (finditer cp t1) = 0 -> t2 = t1).
  { intros Hcov. unfold t2.
    rewrite text_outside_nothing_covered; [apply slice_from_0| |exact Hcov].
    apply (finditer_ordered t1 Hbounds). }
  assert (Hshort : covered (finditer cp t1) <> 0 ->
                   String.length t2 < String.length t1).
  { intros Hcov. pose proof (Hlen t1) as H. fold t2 in H. lia. }
  repeat split.
  - apply sub_empty_template.
  - apply sub_empty_template.
  - apply Hlen.
  - exact Hsame.
  - exact Hshort.
  - destruct (Nat.eq_dec (covered (finditer cp t1)) 0); auto.
Qed.

Lemma sub_empty_removes_matches_witness :
  sub (literal 2 "ab") "" "aaabbb" = inr "aabb"
  /\ sub (literal 2 "ab") "" "aabb" = inr "ab"
  /\ String.length "aabb" + covered (finditer (literal 2 "ab") "aaabbb")
     = String.length "aaabbb".
Proof.
  pose proof (sub_empty_removes_matches "aaabbb" (literal_in_bounds 2 "ab"))
    as H.
  cbv zeta in H. destruct H as (H1 & H2 & H3 & _).
  repeat split; assumption.
Defined.

End RegexClaims.

(** ** The session handlers *)

Section SessionClaims.
Import PyStr Html Regex Session.

Variable re_compile : string -> N -> string + pattern_obj.

(** The guard of lines 214-217 is the only path that leaves the event
    list alone: past it the pattern is compiled. *)
Lemma live_highlight_compiles (st : session_state) :
  pattern_input st <> "" -> editor_content st <> "" ->
  exists rest,
    events (live_highlight re_compile st)
    = (events st
       ++ CallCompile (pattern_input st)
            (compile_flags (case_sensitive_input st) (multiline_input st)
               (dotall_input st)) :: rest)%list.
Proof.
  intros Hp He. unfold live_highlight.
  apply String.eqb_neq in Hp, He. rewrite Hp, He. cbn [orb].
  destruct (compile_pattern _ _ _ _ _) as [e|cp]; cbn [events set_highlight emit].
  - exists []. reflexivity.
  - exists [CallFinditer (editor_content st)].
    rewrite <- app_assoc. reflexivity.
Qed.

(** C10: when the pattern or the editor text is empty, the live
    highlighter sets the match count to 0 and the instructional
    placeholder and changes nothing else; no compilation and no
    match-finding happens (the event list is unchanged), whatever the
    engine is. *)
Theorem live_highlight_empty_guard (st : session_state)
  (Hempty : pattern_input st = "" \/ editor_content st = "") :
  live_highlight re_compile st = set_highlight enter_pattern_html 0 st
  /\ match_count (live_highlight re_compile st) = 0
  /\ highlight_output (live_highlight re_compile st) = enter_pattern_html
  /\ events (live_highlight re_compile st) = events st
  /\ editor_content (live_highlight re_compile st) = editor_content st.
Proof.
  assert (H : live_highlight re_compile st
              = set_highlight enter_pattern_html 0 st).
  { unfold live_highlight.
    destruct Hempty as [-> | ->]; cbn [String.eqb orb]; [reflexivity|].
    rewrite orb_true_r. reflexivity. }
  rewrite H. repeat split.
Qed.

(** C9: with a non-empty editor text and a non-empty pattern, when
    compiling the pattern raises a regex error, replace-in-editor leaves
    the editor text, the undo snapshot, the highlighted markup and the
    match count as they were; it only compiles and reports the error, and
    never reaches the snapshot or the substitution. *)
Theorem replace_atomic_on_compile_error (st : session_state) (e : string)
  (Heditor : editor_content st <> "")
  (Hpattern : pattern_input st <> "")
  (Herror : compile_pattern re_compile (pattern_input st)
              (case_sensitive_input st) (multiline_input st)
              (dotall_input st) = inl e) :
  editor_content (replace_editor_content re_compile st) = editor_content st
  /\ last_editor_content (replace_editor_content re_compile st)
     = last_editor_content st
  /\ highlight_output (replace_editor_content re_compile st)
     = highlight_output st
  /\ match_count (replace_editor_content re_compile st) = match_count st
  /\ events (replace_editor_content re_compile st)
     = (events st
        ++ [ CallCompile (pattern_input st)
               (compile_flags (case_sensitive_input st) (multiline_input st)
                  (dotall_input st));
             ErrorInvalidRegex e ])%list.
Proof.
  unfold replace_editor_content.
  apply String.eqb_neq in Heditor, Hpattern.
  rewrite Heditor, Hpattern. rewrite Herror.
  cbn [emit editor_content last_editor_content highlight_output match_count
         events].
  rewrite <- app_assoc. repeat split.
Qed.

(** The highlighter as a whole: past the guard, with a pattern that
    compiles and matches at least once, the markup it stores reads back
    as the editor text. *)
Lemma live_highlight_roundtrip (st : session_state) (cp : pattern_obj) :
  pattern_input st <> "" -> editor_content st <> "" ->
  compile_pattern re_compile (pattern_input st) (case_sensitive_input st)
    (multiline_input st) (dotall_input st) = inr cp ->
  search_in_bounds cp ->
  finditer cp (editor_content st) <> [] ->
  unescape (strip_wrappers (color_input st)
              (highlight_output (live_highlight re_compile st)))
  = editor_content st
  /\ match_count (live_highlight re_compile st)
     = List.length (finditer cp (editor_content st)).
Proof.
  intros Hp He Hcp Hbounds Hne. unfold live_highlight.
  apply String.eqb_neq in Hp, He. rewrite Hp, He, Hcp. cbn [orb].
  cbn [set_highlight emit highlight_output match_count].
  split; [|reflexivity].
  rewrite highlight_markup_stripped;
    [apply unescape_escape|exact Hne|apply finditer_ordered, Hbounds].
Qed.

(** When the pattern compiles, the snapshot is taken before the
    substitution: it holds the text as it was. *)
Lemma replace_takes_snapshot (st : session_state) (cp : pattern_obj) :
  editor_content st <> "" -> pattern_input st <> "" ->
  compile_pattern re_compile (pattern_input st) (case_sensitive_input st)
    (multiline_input st) (dotall_input st) = inr cp ->
  last_editor_content (replace_editor_content re_compile st)
  = Some (editor_content st).
Proof.
  intros Heditor Hpattern Hcp. unfold replace_editor_content.
  apply String.eqb_neq in Heditor, Hpattern.
  rewrite Heditor, Hpattern, Hcp.
  cbn [emit set_last_editor_content editor_content].
  destruct (sub cp _ _) as [err|replaced]; [reflexivity|].
  unfold live_highlight.
  destruct (_ || _); [reflexivity|].
  destruct (compile_pattern _ _ _ _ _); reflexivity.
Qed.

End SessionClaims.

Section SessionWitnesses.
Import PyStr Html Regex Session LiteralEngine.

Lemma live_highlight_empty_guard_witness :
  List.length (finditer (literal 2 "") "ab") = 3
  /\ match_count
       (live_highlight compile (with_inputs "" "ab" initial_state)) = 0.
Proof.
  split; [reflexivity|].
  exact (proj1 (proj2 (live_highlight_empty_guard compile
                         (with_inputs "" "ab" initial_state)
                         (or_introl eq_refl)))).
Defined.

Lemma replace_atomic_on_compile_error_witness :
  let st := set_last_editor_content (Some "old")
              (with_inputs "(" "abc" initial_state) in
  editor_content (replace_editor_content compile st) = "abc"
  /\ last_editor_content (replace_editor_content compile st) = Some "old".
Proof.
  cbv zeta.
  pose proof (@replace_atomic_on_compile_error compile
                (set_last_editor_content (Some "old")
                   (with_inputs "(" "abc" initial_state))
                "missing ), unterminated subpattern at position 0") as H.
  destruct H as (H1 & H2 & _).
  - discriminate.
  - discriminate.
  - reflexivity.
  - split; [exact H1|exact H2].
Defined.

(** The highlighter end to end: ["<b"] is found once in ["a<b>&c"], and
    the markup reads back as the text. *)
Example live_highlight_roundtrip_example :
  let st := live_highlight compile (with_inputs "<b" "a<b>&c" initial_state) in
  match_count st = 1
  /\ unescape (strip_wrappers (color_input st) (highlight_output st))
     = "a<b>&c".
Proof. split; reflexivity. Qed.

(** With no match in the text the placeholder is shown instead. *)
Example live_highlight_no_match_example :
  let st := live_highlight compile (with_inputs "z" "a<b" initial_state) in
  match_count st = 0
  /\ highlight_output st = no_matches_html
  /\ unescape (strip_wrappers (color_input st) (highlight_output st))
     <> "a<b".
Proof. repeat split. discriminate. Qed.

End SessionWitnesses.

(** ** The saved-pattern loader *)

Section LibraryClaims.
Import Library.

Variable json_loads : list N -> outcome json.

(** C8, the listed cases: an absent file, an I/O error on reading, a
    text that the JSON parser rejects and a parsed value that is not a
    list all give the empty list; a parsed list is returned as it is. *)
Lemma load_patterns_file_handled (fs : filesystem) :
  (path_exists fs = false -> load_patterns_file json_loads fs = Return [])
  /\ (forall e, open_read fs = inl e ->
        load_patterns_file json_loads fs = Return [])
  /\ (forall bytes text,
        open_read fs = inr bytes -> utf8_decode bytes = Some text ->
        json_loads text = Raise JSONDecodeError ->
        load_patterns_file json_loads fs = Return [])
  /\ (forall bytes text v,
        open_read fs = inr bytes -> utf8_decode bytes = Some text ->
        json_loads text = Return v ->
        load_patterns_file json_loads fs
        = Return (match v with JArray items => items | _ => [] end)
          \/ path_exists fs = false).
Proof.
  unfold load_patterns_file, read_library. repeat split.
  - intros ->. reflexivity.
  - intros e ->. destruct (path_exists fs); reflexivity.
  - intros bytes text -> -> ->. destruct (path_exists fs); reflexivity.
  - intros bytes text v -> -> ->.
    destruct (path_exists fs); [left|right; reflexivity].
    destruct v; reflexivity.
Qed.

(** The loader raises exactly the exceptions of the [try] block that
    the [except] clause does not name. *)
Lemma load_patterns_file_raises (fs : filesystem) (e : exn) :
  load_patterns_file json_loads fs = Raise e <->
  path_exists fs = true /\ read_library json_loads fs = Raise e
  /\ handled e = false.
Proof.
  unfold load_patterns_file. destruct (path_exists fs); cbn [negb].
  - destruct (read_library json_loads fs) as [v|e'].
    + split; [discriminate|intros (_ & H & _); discriminate].
    + destruct (handled e') eqn:He'.
      * split; [discriminate|].
        intros (_ & H & Hh). inversion H; subst. congruence.
      * split.
        -- intros H. inversion H; subst. auto.
        -- intros (_ & H & _). exact H.
  - split; [discriminate|intros (H & _); discriminate].
Qed.

(** C8 on a library file that holds the single byte [0xFF]: the bytes
    are not UTF-8, reading them raises [UnicodeDecodeError], which the
    [except] clause does not catch, so the loader raises instead of
    returning the empty list. *)
Theorem load_patterns_file_undecodable :
  load_patterns_file json_loads
    {| path_exists := true; open_read := inr [xff] |}
  = Raise UnicodeDecodeError.
Proof. reflexivity. Qed.

End LibraryClaims.

(** ** More about the explainer *)

Section ExplainerMore.
Import PyStr Explainer.

Lemma explain_step_bullet (pattern : string) (i : nat) :
  starts_with "- " (fst (explain_step pattern i)) = true.
Proof.
  unfold explain_step, explain_single, explain_rest.
  repeat match goal with
         | |- context [match ?o with Some _ => _ | None => _ end] => destruct o
         | |- context [if ?b then _ else _] => destruct b
         end; reflexivity.
Qed.

Lemma explain_loop_forall (P : string -> Prop) (pattern : string) :
  (forall i, P (fst (explain_step pattern i))) ->
  forall n i acc, String.length pattern - i <= n ->
  Forall P acc -> Forall P (explain_loop pattern i acc).
Proof.
  intros Hstep. induction n as [|n IH]; intros i acc Hn Hacc;
    rewrite explain_loop_while.
  - assert (Hge : (i <? String.length pattern)%nat = false)
      by (apply Nat.ltb_ge; lia).
    rewrite Hge. exact Hacc.
  - destruct (i <? String.length pattern)%nat eqn:Hlt; [|exact Hacc].
    apply Nat.ltb_lt in Hlt.
    pose proof (explain_step_advances pattern i) as Hadv.
    apply IH; [lia|].
    apply Forall_app. split; [exact Hacc|]. constructor; [apply Hstep|constructor].
Qed.

(** X1: every line of an explanation is a markdown list item: it starts
    with a dash and a space, the placeholder of the empty pattern too. *)
Theorem explain_regex_bullets (pattern : string) :
  Forall (fun d => starts_with "- " d = true) (explain_regex pattern).
Proof.
  unfold explain_regex.
  pose proof (@explain_loop_forall (fun d => starts_with "- " d = true) pattern
                (explain_step_bullet pattern) (String.length pattern) 0 []
                (Nat.le_sub_l _ _) (Forall_nil _)) as H.
  destruct (explain_loop pattern 0 []) as [|d ds]; [|exact H].
  constructor; [reflexivity|constructor].
Qed.

Lemma substring_length_le (s : string) : forall n m,
  String.length (substring n m s) <= String.length s - n
  /\ String.length (substring n m s) <= m.
Proof.
  induction s as [|c s IH]; intros n m.
  - destruct n, m; simpl; lia.
  - destruct n as [|n].
    + destruct m as [|m]; simpl; [lia|].
      destruct (IH 0 m) as [H1 H2]. lia.
    + simpl. apply IH.
Qed.

Lemma slice_reaches (s lit : string) (a b : nat) :
  slice a b s = lit -> a + String.length lit <= Nat.max a (String.length s).
Proof.
  intros <-. unfold slice.
  destruct (substring_length_le s a (b - a)) as [H _]. lia.
Qed.

(** X2: inside the pattern one iteration moves the cursor forward and
    never past the end: the tokens tile the pattern, without overlap and
    without reading beyond it. *)
Theorem explain_step_within (pattern : string) (i : nat)
  (Hin : i < String.length pattern) :
  i < snd (explain_step pattern i) <= String.length pattern.
Proof.
  split; [apply explain_step_advances|].
  unfold explain_step.
  destruct ((char_at pattern i =? "\") && (i + 1 <? String.length pattern)%nat)
    eqn:Hesc.
  - apply andb_true_iff in Hesc as [_ Hnext]. apply Nat.ltb_lt in Hnext.
    destruct (dict_mem token_map _); simpl; lia.
  - unfold explain_single.
    destruct (dict_mem token_map _); [simpl; lia|].
    destruct (in_chars _ _); [simpl; lia|].
    destruct (if char_at pattern i =? "{"
              then match_brace (slice_from i pattern) else None)
      as [m|] eqn:Hm.
    + destruct (char_at pattern i =? "{"); [|discriminate].
      apply match_brace_sound in Hm. destruct Hm as (_ & _ & rest & Hrest).
      apply (f_equal String.length) in Hrest.
      rewrite slice_from_length, append_length in Hrest. simpl. lia.
    + unfold explain_rest.
      repeat match goal with
             | |- context [if ?a =? ?b then _ else _] =>
                 let E := fresh "E" in
                 destruct (a =? b) eqn:E;
                 [apply String.eqb_eq in E; try apply slice_reaches in E|]
             end; simpl in *; lia.
Qed.

Lemma explain_step_within_witness :
  0 < snd (explain_step "a{2,5}" 0) <= 6
  /\ 1 < snd (explain_step "a{2,5}" 1) <= 6.
Proof.
  split.
  - apply (@explain_step_within "a{2,5}" 0). simpl. lia.
  - apply (@explain_step_within "a{2,5}" 1). simpl. lia.
Defined.

Import ExplainerShapes.

Lemma explain_step_ordinary (pattern : string) (i : nat) (c : ascii) :
  char_at pattern i = String c "" -> ordinary c = true ->
  explain_step pattern i = (literal_desc (String c ""), i + 1).
Proof.
  intros Hc Hord. unfold ordinary in Hord. apply negb_true_iff in Hord.
  cbn [in_chars] in Hord. repeat rewrite orb_false_iff in Hord.
  destruct Hord as (Hbs & Hdot & Hcaret & Hdollar & Hstar & Hplus & Hq
                    & Hbrace & Hopen & Hclose & Hbar & Hset & Hend & _).
  rewrite (explain_step_rest pattern i Hc).
  - unfold explain_rest. rewrite Hopen, Hclose, Hbar, Hset, Hend. reflexivity.
  - cbn [in_chars].
    rewrite Hbs, Hdot, Hcaret, Hdollar, Hstar, Hplus, Hq, Hbrace. reflexivity.
Qed.

Lemma explain_loop_ordinary (pattern : string) : forall s i acc,
  slice_from i pattern = s -> Html.string_forall ordinary s = true ->
  explain_loop pattern i acc
  = (acc ++ map (fun c => literal_desc (String c ""))
              (list_ascii_of_string s))%list.
Proof.
  induction s as [|c r IH]; intros i acc Hs Hord; rewrite explain_loop_while.
  - assert (Hge : (i <? String.length pattern)%nat = false).
    { apply Nat.ltb_ge. apply (f_equal String.length) in Hs.
      rewrite slice_from_length in Hs. simpl in Hs. lia. }
    rewrite Hge. simpl. symmetry. apply app_nil_r.
  - assert (Hlt : (i <? String.length pattern)%nat = true).
    { apply Nat.ltb_lt. apply (f_equal String.length) in Hs.
      rewrite slice_from_length in Hs. simpl in Hs. lia. }
    rewrite Hlt. cbn [Html.string_forall] in Hord.
    apply andb_true_iff in Hord as [Hc Hr].
    rewrite (explain_step_ordinary pattern i (char_at_slice_from pattern i Hs) Hc).
    cbn [fst snd]. rewrite Nat.add_1_r.
    rewrite (IH (S i) _ (slice_next pattern i Hs) Hr).
    rewrite <- app_assoc. reflexivity.
Qed.

(** X3: a non-empty pattern made only of characters that the explainer
    does not treat specially is explained character by character: one
    literal description per character, in the order of the pattern. *)
Theorem explain_regex_ordinary (pattern : string)
  (Hne : pattern <> "")
  (Hord : Html.string_forall ordinary pattern = true) :
  explain_regex pattern
  = map (fun c => literal_desc (String c "")) (list_ascii_of_string pattern).
Proof.
  unfold explain_regex.
  rewrite (explain_loop_ordinary pattern (s:=pattern) 0 []
             (slice_from_0 pattern) Hord).
  destruct pattern as [|c r]; [congruence|]. reflexivity.
Qed.

Lemma explain_regex_ordinary_witness :
  explain_regex "a}b, c"
  = map (fun c => literal_desc (String c "")) (list_ascii_of_string "a}b, c").
Proof.
  apply (@explain_regex_ordinary "a}b, c"); [discriminate|reflexivity].
Defined.

Lemma char_at_inside (s : string) : forall i c,
  char_at s i = String c "" -> i < String.length s.
Proof.
  unfold char_at.
  induction s as [|x s IH]; intros [|i] c H; simpl in *; try discriminate.
  - lia.
  - apply IH in H. lia.
Qed.

Lemma slice_two (s : string) (i : nat) (a c : ascii) :
  char_at s i = String a "" -> char_at s (i + 1) = String c "" ->
  slice i (i + 2) s = String a (String c "").
Proof.
  intros Ha Hc.
  destruct (slice_from_char_at s i Ha) as [r Hr].
  destruct (slice_from_char_at s (i + 1) Hc) as [r' Hr'].
  rewrite Nat.add_1_r, (slice_next s i Hr) in Hr'. subst r.
  unfold slice. replace (i + 2 - i) with 2 by lia.
  rewrite substring_of_slice_from, Hr. destruct r'; reflexivity.
Qed.

(** X4: a backslash followed by a character is one token of two
    characters. Followed by one of the class letters [dDwWsSbB] it gets
    the description of that class; followed by any other character, a
    metacharacter included, it is explained as that character taken
    literally. *)
Theorem explain_step_escaped (pattern : string) (i : nat) (c : ascii)
  (Hbackslash : char_at pattern i = "\")
  (Hnext : char_at pattern (i + 1) = String c "") :
  snd (explain_step pattern i) = i + 2
  /\ (class_letter c = true ->
      fst (explain_step pattern i)
      = "- " ++ dict_index token_map (String "\" (String c "")))
  /\ (class_letter c = false ->
      fst (explain_step pattern i)
      = escaped_literal_desc (String "\" (String c "")) (String c "")).
Proof.
  unfold explain_step. rewrite Hbackslash.
  change ("\" =? "\") with true.
  assert (Hlt : (i + 1 <? String.length pattern)%nat = true)
    by (apply Nat.ltb_lt; eapply char_at_inside; eauto).
  rewrite Hlt. cbn [andb].
  rewrite (slice_two pattern i Hbackslash Hnext), Hnext.
  assert (Hmem : dict_mem token_map (String "\" (String c ""))
                 = class_letter c).
  { destruct c as [[] [] [] [] [] [] [] []]; reflexivity. }
  rewrite Hmem.
  destruct (class_letter c); repeat split; congruence.
Qed.

Lemma explain_step_escaped_witness :
  explain_step "a\.b" 1
  = (escaped_literal_desc "\." ".", 3).
Proof.
  pose proof (@explain_step_escaped "a\.b" 1 "."%char eq_refl eq_refl)
    as (Hsnd & _ & Hfst).
  rewrite (surjective_pairing (explain_step "a\.b" 1)).
  rewrite Hsnd, (Hfst eq_refl). reflexivity.
Defined.

End ExplainerMore.

(** ** More about the session handlers *)

Section SessionMore.
Import PyStr Html Regex RegexShapes Session.

Variable re_compile : string -> N -> string + pattern_obj.

(** The live highlighter writes the markup, the match count and the
    event list, and nothing else. *)
Lemma live_highlight_frame (st : session_state) :
  pattern_input (live_highlight re_compile st) = pattern_input st
  /\ case_sensitive_input (live_highlight re_compile st)
     = case_sensitive_input st
  /\ multiline_input (live_highlight re_compile st) = multiline_input st
  /\ dotall_input (live_highlight re_compile st) = dotall_input st
  /\ color_input (live_highlight re_compile st) = color_input st
  /\ replace_with_input (live_highlight re_compile st)
     = replace_with_input st
  /\ editor_content (live_highlight re_compile st) = editor_content st
  /\ last_editor_content (live_highlight re_compile st)
     = last_editor_content st.
Proof.
  unfold live_highlight.
  destruct (_ || _); [repeat split|].
  destruct (compile_pattern _ _ _ _ _); repeat split.
Qed.

(** What it writes depends on the pattern, the three options, the color
    and the editor text only. *)
Lemma live_highlight_display (st1 st2 : session_state) :
  pattern_input st1 = pattern_input st2 ->
  case_sensitive_input st1 = case_sensitive_input st2 ->
  multiline_input st1 = multiline_input st2 ->
  dotall_input st1 = dotall_input st2 ->
  color_input st1 = color_input st2 ->
  editor_content st1 = editor_content st2 ->
  highlight_output (live_highlight re_compile st1)
  = highlight_output (live_highlight re_compile st2)
  /\ match_count (live_highlight re_compile st1)
     = match_count (live_highlight re_compile st2).
Proof.
  intros Hp Hcs Hml Hda Hcol Hed. unfold live_highlight.
  rewrite Hp, Hcs, Hml, Hda, Hcol, Hed.
  destruct (_ || _); [split; reflexivity|].
  destruct (compile_pattern _ _ _ _ _); split; reflexivity.
Qed.

(** X5: the live highlighter never touches the pattern, the options,
    the replacement, the editor text or the undo snapshot, and running it
    again without a change of input shows the same markup and the same
    match count. *)
Theorem live_highlight_stable (st : session_state) :
  editor_content (live_highlight re_compile st) = editor_content st
  /\ last_editor_content (live_highlight re_compile st)
     = last_editor_content st
  /\ pattern_input (live_highlight re_compile st) = pattern_input st
  /\ replace_with_input (live_highlight re_compile st)
     = replace_with_input st
  /\ highlight_output (live_highlight re_compile (live_highlight re_compile st))
     = highlight_output (live_highlight re_compile st)
  /\ match_count (live_highlight re_compile (live_highlight re_compile st))
     = match_count (live_highlight re_compile st).
Proof.
  destruct (live_highlight_frame st)
    as (Hp & Hcs & Hml & Hda & Hcol & Hrw & Hed & Hlast).
  destruct (live_highlight_display (live_highlight re_compile st) st
              Hp Hcs Hml Hda Hcol Hed) as [Hout Hcount].
  repeat split; assumption.
Qed.

(** The bits of a flag word below 32 are among the five lowest. *)
Lemma small_word_bits (v n : N) :
  (v < 32)%N -> N.testbit v n = true -> (n < 5)%N.
Proof.
  intros Hv Hbit.
  destruct (N.ltb_spec n 5) as [Hn|Hn]; [exact Hn|].
  exfalso.
  destruct (N.eq_dec v 0) as [->|Hnz].
  - rewrite N.bits_0 in Hbit. discriminate Hbit.
  - rewrite N.bits_above_log2 in Hbit; [discriminate Hbit|].
    apply N.log2_lt_pow2; [lia|].
    apply N.lt_le_trans with (2 ^ 5)%N; [exact Hv|].
    apply N.pow_le_mono_r; lia.
Qed.

(** X6: the flag word keeps the three options apart: bit 1 (IGNORECASE)
    is set exactly when the search is not case sensitive, bit 3
    (MULTILINE) and bit 4 (DOTALL) exactly when the option is ticked, no
    other bit is ever set, the word is the sum of the flags chosen, and
    different option sets are compiled with different flags. *)
Theorem compile_flags_bits (cs ml da : bool) :
  N.testbit (compile_flags cs ml da) 1 = negb cs
  /\ N.testbit (compile_flags cs ml da) 3 = ml
  /\ N.testbit (compile_flags cs ml da) 4 = da
  /\ (compile_flags cs ml da < 32)%N
  /\ (forall cs' ml' da',
        compile_flags cs ml da = compile_flags cs' ml' da' ->
        cs = cs' /\ ml = ml' /\ da = da')
  /\ (forall n : N, n <> 1%N -> n <> 3%N -> n <> 4%N ->
        N.testbit (compile_flags cs ml da) n = false)
  /\ compile_flags cs ml da
     = ((if cs then 0 else 2) + (if ml then 8 else 0)
        + (if da then 16 else 0))%N.
Proof.
  split; [destruct cs, ml, da; reflexivity|].
  split; [destruct cs, ml, da; reflexivity|].
  split; [destruct cs, ml, da; reflexivity|].
  split; [destruct cs, ml, da; reflexivity|].
  split.
  { intros cs' ml' da' H.
    destruct cs, ml, da, cs', ml', da'; try discriminate H; repeat split. }
  split; [|destruct cs, ml, da; reflexivity].
  intros n H1 H3 H4.
  destruct (N.testbit (compile_flags cs ml da) n) eqn:Hbit; [|reflexivity].
  assert (Hn : (n < 5)%N).
  { apply (@small_word_bits (compile_flags cs ml da) n);
      [destruct cs, ml, da; reflexivity|exact Hbit]. }
  assert (Hcase : n = 0%N \/ n = 2%N) by lia.
  destruct Hcase as [->| ->]; destruct cs, ml, da; discriminate Hbit.
Qed.

(** The last snapshot is gone after an undo, whatever happened. *)
Lemma undo_clears_snapshot (st : session_state) :
  last_editor_content (undo_editor_content re_compile st) = None.
Proof.
  unfold undo_editor_content.
  destruct (last_editor_content st) as [snapshot|] eqn:Hlast.
  - cbn [emit last_editor_content].
    destruct (live_highlight_frame
                (set_last_editor_content None
                   (set_editor_content snapshot st)))
      as (_ & _ & _ & _ & _ & _ & _ & H).
    rewrite H. reflexivity.
  - cbn [emit last_editor_content]. exact Hlast.
Qed.

(** X7: undo goes back one step only: a second undo in a row changes
    nothing and reports that there is nothing to undo. *)
Theorem undo_twice (st : session_state) :
  undo_editor_content re_compile (undo_editor_content re_compile st)
  = emit ToastNothingToUndo (undo_editor_content re_compile st).
Proof.
  unfold undo_editor_content at 1.
  rewrite undo_clears_snapshot. reflexivity.
Qed.

(** What a successful replace leaves behind. *)
Lemma replace_success (st : session_state) (cp : pattern_obj)
  (replaced : string) :
  editor_content st <> "" -> pattern_input st <> "" ->
  compile_pattern re_compile (pattern_input st) (case_sensitive_input st)
    (multiline_input st) (dotall_input st) = inr cp ->
  sub cp (replace_with_input st) (editor_content st) = inr replaced ->
  replace_editor_content re_compile st
  = emit ToastReplacementComplete
      (live_highlight re_compile
         (set_editor_content replaced
            (emit (CallSub (replace_with_input st) (editor_content st))
               (set_last_editor_content (Some (editor_content st))
                  (emit (CallCompile (pattern_input st)
                           (compile_flags (case_sensitive_input st)
                              (multiline_input st) (dotall_input st)))
                     st))))).
Proof.
  intros He Hp Hcp Hsub. unfold replace_editor_content.
  apply String.eqb_neq in He, Hp. rewrite He, Hp, Hcp.
  cbn [emit set_last_editor_content editor_content replace_with_input].
  rewrite Hsub. reflexivity.
Qed.

Lemma replace_success_fields (st : session_state) (cp : pattern_obj)
  (replaced : string) :
  editor_content st <> "" -> pattern_input st <> "" ->
  compile_pattern re_compile (pattern_input st) (case_sensitive_input st)
    (multiline_input st) (dotall_input st) = inr cp ->
  sub cp (replace_with_input st) (editor_content st) = inr replaced ->
  editor_content (replace_editor_content re_compile st) = replaced
  /\ last_editor_content (replace_editor_content re_compile st)
     = Some (editor_content st).
Proof.
  intros He Hp Hcp Hsub. rewrite (replace_success st He Hp Hcp Hsub).
  set (st1 := set_editor_content replaced _).
  destruct (live_highlight_frame st1) as (_ & _ & _ & _ & _ & _ & Hed & Hlast).
  cbn [emit editor_content last_editor_content]. rewrite Hed, Hlast.
  split; reflexivity.
Qed.

(** Replace-in-editor never writes the pattern widgets. *)
Lemma replace_frame (st : session_state) :
  pattern_input (replace_editor_content re_compile st) = pattern_input st
  /\ case_sensitive_input (replace_editor_content re_compile st)
     = case_sensitive_input st
  /\ multiline_input (replace_editor_content re_compile st)
     = multiline_input st
  /\ dotall_input (replace_editor_content re_compile st) = dotall_input st
  /\ color_input (replace_editor_content re_compile st) = color_input st
  /\ replace_with_input (replace_editor_content re_compile st)
     = replace_with_input st.
Proof.
  unfold replace_editor_content.
  destruct (editor_content st =? ""); [repeat split|].
  destruct (pattern_input st =? ""); [repeat split|].
  destruct (compile_pattern _ _ _ _ _) as [e|cp]; [repeat split|].
  destruct (sub cp _ _) as [e|replaced]; [repeat split|].
  match goal with
  | |- context [live_highlight re_compile ?s] =>
      destruct (live_highlight_frame s)
        as (Hp & Hcs & Hml & Hda & Hcol & Hrw & _)
  end.
  cbn [emit pattern_input case_sensitive_input multiline_input dotall_input
         color_input replace_with_input].
  rewrite Hp, Hcs, Hml, Hda, Hcol, Hrw. repeat split.
Qed.

(** X8: after a replace that went through, the editor holds the
    substituted text and the snapshot the text as it was; undo puts the
    text back exactly, drops the snapshot, and shows again the markup and
    the match count of the text before the replace. *)
Theorem undo_after_replace (st : session_state) (cp : pattern_obj)
  (replaced : string)
  (Heditor : editor_content st <> "")
  (Hpattern : pattern_input st <> "")
  (Hcompile : compile_pattern re_compile (pattern_input st)
                (case_sensitive_input st) (multiline_input st)
                (dotall_input st) = inr cp)
  (Hsub : sub cp (replace_with_input st) (editor_content st) = inr replaced) :
  editor_content (replace_editor_content re_compile st) = replaced
  /\ last_editor_content (replace_editor_content re_compile st)
     = Some (editor_content st)
  /\ editor_content
       (undo_editor_content re_compile (replace_editor_content re_compile st))
     = editor_content st
  /\ last_editor_content
       (undo_editor_content re_compile (replace_editor_content re_compile st))
     = None
  /\ highlight_output
       (undo_editor_content re_compile (replace_editor_content re_compile st))
     = highlight_output (live_highlight re_compile st)
  /\ match_count
       (undo_editor_content re_compile (replace_editor_content re_compile st))
     = match_count (live_highlight re_compile st).
Proof.
  destruct (replace_success_fields st Heditor Hpattern Hcompile Hsub)
    as [Hreplaced Hsnap].
  split; [exact Hreplaced|]. split; [exact Hsnap|].
  split; [|split; [apply undo_clears_snapshot|]].
  - unfold undo_editor_content. rewrite Hsnap.
    cbn [emit editor_content].
    match goal with
    | |- editor_content (live_highlight re_compile ?s) = _ =>
        destruct (live_highlight_frame s) as (_ & _ & _ & _ & _ & _ & H & _);
        rewrite H
    end.
    reflexivity.
  - unfold undo_editor_content. rewrite Hsnap.
    cbn [emit highlight_output match_count].
    destruct (replace_frame st) as (Hp & Hcs & Hml & Hda & Hcol & _).
    apply live_highlight_display;
      cbn [set_last_editor_content set_editor_content pattern_input
             case_sensitive_input multiline_input dotall_input color_input
             editor_content];
      try assumption; reflexivity.
Qed.

(** X9: when the pattern compiles but the replacement template is
    refused, the editor text, the markup and the match count stay as they
    were, yet the undo snapshot has already been overwritten with the
    current text: an earlier snapshot is lost, and an undo afterwards
    brings back the text that is in the editor anyway. *)
Theorem replace_template_error (st : session_state) (cp : pattern_obj)
  (e : string)
  (Heditor : editor_content st <> "")
  (Hpattern : pattern_input st <> "")
  (Hcompile : compile_pattern re_compile (pattern_input st)
                (case_sensitive_input st) (multiline_input st)
                (dotall_input st) = inr cp)
  (Hsub : sub cp (replace_with_input st) (editor_content st) = inl e) :
  editor_content (replace_editor_content re_compile st) = editor_content st
  /\ last_editor_content (replace_editor_content re_compile st)
     = Some (editor_content st)
  /\ highlight_output (replace_editor_content re_compile st)
     = highlight_output st
  /\ match_count (replace_editor_content re_compile st) = match_count st
  /\ editor_content
       (undo_editor_content re_compile (replace_editor_content re_compile st))
     = editor_content st.
Proof.
  assert (Hshape : replace_editor_content re_compile st
    = emit (ErrorInvalidRegex e)
        (emit (CallSub (replace_with_input st) (editor_content st))
           (set_last_editor_content (Some (editor_content st))
              (emit (CallCompile (pattern_input st)
                       (compile_flags (case_sensitive_input st)
                          (multiline_input st) (dotall_input st)))
                 st)))).
  { unfold replace_editor_content.
    apply String.eqb_neq in Heditor, Hpattern.
    rewrite Heditor, Hpattern, Hcompile.
    cbn [emit set_last_editor_content editor_content replace_with_input].
    rewrite Hsub. reflexivity. }
  rewrite Hshape. repeat split.
  unfold undo_editor_content.
  cbn [emit set_last_editor_content last_editor_content].
  cbn [emit editor_content].
  match goal with
  | |- editor_content (live_highlight re_compile ?s) = _ =>
      destruct (live_highlight_frame s) as (_ & _ & _ & _ & _ & _ & H & _);
      rewrite H
  end.
  reflexivity.
Qed.

(** *** A replacement template without a backslash *)

Lemma sub_loop_with (cp : pattern_obj) (repl text : string)
  (matches : list re_match) :
  has_backslash repl = false ->
  forall last_end out,
    fst (sub_loop cp repl text matches last_end out)
      ++ slice_from (snd (sub_loop cp repl text matches last_end out)) text
    = out ++ text_with repl text last_end matches.
Proof.
  intros Hlit. induction matches as [|m rest IH]; intros last_end out;
    cbn [sub_loop text_with fst snd]; [reflexivity|].
  rewrite IH. unfold replacement. rewrite Hlit.
  rewrite !append_assoc. reflexivity.
Qed.

Lemma sub_literal_template (cp : pattern_obj) (repl text : string) :
  has_backslash repl = false ->
  sub cp repl text = inr (text_with repl text 0 (finditer cp text)).
Proof.
  intros Hlit. unfold sub. rewrite Hlit.
  pose proof (@sub_loop_with cp repl text (finditer cp text) Hlit 0 "") as H.
  destruct (sub_loop cp repl text (finditer cp text) 0 "") as [out last_end].
  cbn [fst snd] in H. rewrite H. reflexivity.
Qed.

Lemma text_with_length (repl text : string) (matches : list re_match) :
  forall last_end,
    spans_ordered last_end matches ->
    Forall (span_within (String.length text)) matches ->
    last_end <= String.length text ->
    String.length (text_with repl text last_end matches) + covered matches
    = String.length text - last_end
      + List.length matches * String.length repl.
Proof.
  induction matches as [|m rest IH]; intros last_end Hord Hin Hlast;
    cbn [text_with covered List.length].
  - rewrite slice_from_length. lia.
  - destruct Hord as (Hs & He & Hrest).
    inversion Hin as [|? ? [_ Hl] Hin']; subst.
    rewrite !append_length, slice_length by lia.
    specialize (IH (m_end m) Hrest Hin' Hl). lia.
Qed.

(** X10: with a replacement that holds no backslash, a replace whose
    pattern compiles cannot fail: every non-overlapping match is
    replaced by the template as it stands, so the new text is the old one
    minus the characters the matches cover plus one template per match;
    the snapshot holds the old text and the match count shown is the one
    of the new text. *)
Theorem replace_literal_template (st : session_state) (cp : pattern_obj)
  (Heditor : editor_content st <> "")
  (Hpattern : pattern_input st <> "")
  (Hcompile : compile_pattern re_compile (pattern_input st)
                (case_sensitive_input st) (multiline_input st)
                (dotall_input st) = inr cp)
  (Hbounds : search_in_bounds cp)
  (Hliteral : has_backslash (replace_with_input st) = false) :
  let matches := finditer cp (editor_content st) in
  let after := replace_editor_content re_compile st in
  editor_content after
  = text_with (replace_with_input st) (editor_content st) 0 matches
  /\ String.length (editor_content after) + covered matches
     = String.length (editor_content st)
       + List.length matches * String.length (replace_with_input st)
  /\ last_editor_content after = Some (editor_content st)
  /\ (editor_content after <> "" ->
      match_count after = List.length (finditer cp (editor_content after))).
Proof.
  intros matches after.
  pose proof (sub_literal_template cp (replace_with_input st)
                (editor_content st) Hliteral) as Hsub.
  destruct (replace_success_fields st Heditor Hpattern Hcompile Hsub)
    as (Hed & Hlast).
  fold after in Hed, Hlast.
  split; [exact Hed|]. split; [|split; [exact Hlast|]].
  - rewrite Hed.
    pose proof (@text_with_length (replace_with_input st) (editor_content st)
                  matches 0 (finditer_ordered (editor_content st) Hbounds)
                  (finditer_within (editor_content st) Hbounds)
                  (Nat.le_0_l _)) as H.
    rewrite Nat.sub_0_r in H. exact H.
  - intros Hne. rewrite Hed in Hne. apply String.eqb_neq in Hne.
    unfold after.
    rewrite (replace_success st Heditor Hpattern Hcompile Hsub).
    cbn [emit match_count editor_content].
    set (st1 := set_editor_content _ _).
    destruct (live_highlight_frame st1) as (_ & _ & _ & _ & _ & _ & Hed1 & _).
    rewrite Hed1. unfold live_highlight.
    change (pattern_input st1) with (pattern_input st).
    change (case_sensitive_input st1) with (case_sensitive_input st).
    change (multiline_input st1) with (multiline_input st).
    change (dotall_input st1) with (dotall_input st).
    change (editor_content st1)
      with (text_with (replace_with_input st) (editor_content st) 0
              (finditer cp (editor_content st))).
    apply String.eqb_neq in Hpattern. rewrite Hpattern, Hne. cbn [orb].
    rewrite Hcompile. reflexivity.
Qed.

End SessionMore.

Section SessionMoreWitnesses.
Import PyStr Html Regex RegexShapes Session PatternLibrary LiteralEngine.

Lemma undo_after_replace_witness :
  let st := with_settings "ab" false false false "yellow" "-"
              (with_inputs "" "xaby" initial_state) in
  editor_content (replace_editor_content compile st) = "x-y"
  /\ editor_content
       (undo_editor_content compile (replace_editor_content compile st))
     = "xaby".
Proof.
  cbv zeta.
  pose proof (@undo_after_replace compile
                (with_settings "ab" false false false "yellow" "-"
                   (with_inputs "" "xaby" initial_state))
                (literal 2 "ab") "x-y") as H.
  destruct H as (H1 & _ & H3 & _).
  - discriminate.
  - discriminate.
  - reflexivity.
  - reflexivity.
  - split; [exact H1|exact H3].
Defined.

Lemma replace_template_error_witness :
  let st := set_last_editor_content (Some "old")
              (with_settings "ab" false false false "yellow" "\1"
                 (with_inputs "" "xaby" initial_state)) in
  editor_content (replace_editor_content compile st) = "xaby"
  /\ last_editor_content (replace_editor_content compile st) = Some "xaby".
Proof.
  cbv zeta.
  pose proof (@replace_template_error compile
                (set_last_editor_content (Some "old")
                   (with_settings "ab" false false false "yellow" "\1"
                      (with_inputs "" "xaby" initial_state)))
                (literal 2 "ab") "bad escape") as H.
  destruct H as (H1 & H2 & _).
  - discriminate.
  - discriminate.
  - reflexivity.
  - reflexivity.
  - split; [exact H1|exact H2].
Defined.

Lemma replace_literal_template_witness :
  let st := with_settings "ab" false false false "yellow" "<->"
              (with_inputs "" "xabyAB" initial_state) in
  editor_content (replace_editor_content compile st) = "x<->y<->"
  /\ String.length "x<->y<->" + 4 = String.length "xabyAB" + 2 * 3.
Proof.
  cbv zeta.
  pose proof (@replace_literal_template compile
                (with_settings "ab" false false false "yellow" "<->"
                   (with_inputs "" "xabyAB" initial_state))
                (literal 2 "ab")) as H.
  cbv zeta in H. destruct H as (H1 & H2 & _).
  - discriminate.
  - discriminate.
  - reflexivity.
  - apply literal_in_bounds.
  - reflexivity.
  - split; [exact H1|exact H2].
Defined.

End SessionMoreWitnesses.

(** ** The pattern widgets and the saved patterns *)

Section PatternLibraryFacts.
Import PyStr PyMore Regex Session PatternLibrary.

Variable re_compile : string -> N -> string + pattern_obj.

(** X11: inserting two cheat-sheet tokens one after the other leaves
    the same pattern, markup and match count as inserting both at once,
    and never touches the editor text. *)
Theorem insert_token_twice (st : session_state) (t1 t2 : string) :
  pattern_input (insert_token re_compile t2 (insert_token re_compile t1 st))
  = pattern_input st ++ t1 ++ t2
  /\ editor_content
       (insert_token re_compile t2 (insert_token re_compile t1 st))
     = editor_content st
  /\ highlight_output
       (insert_token re_compile t2 (insert_token re_compile t1 st))
     = highlight_output (insert_token re_compile (t1 ++ t2) st)
  /\ match_count
       (insert_token re_compile t2 (insert_token re_compile t1 st))
     = match_count (insert_token re_compile (t1 ++ t2) st).
Proof.
  unfold insert_token.
  set (s1 := live_highlight re_compile
               (with_inputs (pattern_input st ++ t1) (editor_content st) st)).
  destruct (live_highlight_frame re_compile
              (with_inputs (pattern_input st ++ t1) (editor_content st) st))
    as (Hp & Hcs & Hml & Hda & Hcol & _ & Hed & _).
  fold s1 in Hp, Hcs, Hml, Hda, Hcol, Hed.
  cbn [with_inputs pattern_input case_sensitive_input multiline_input
         dotall_input color_input editor_content] in Hp, Hcs, Hml, Hda, Hcol, Hed.
  destruct (live_highlight_frame re_compile
              (with_inputs (pattern_input s1 ++ t2) (editor_content s1) s1))
    as (Hp2 & _ & _ & _ & _ & _ & Hed2 & _).
  cbn [with_inputs pattern_input editor_content] in Hp2, Hed2.
  split; [rewrite Hp2, Hp; apply append_assoc|].
  split; [rewrite Hed2, Hed; reflexivity|].
  apply live_highlight_display;
    cbn [with_inputs pattern_input case_sensitive_input multiline_input
           dotall_input color_input editor_content];
    try assumption.
  rewrite Hp. apply append_assoc.
Qed.

Lemma common_patterns_defaults (choice : string) (p : common_pattern) :
  common_get choice COMMON_PATTERNS = Some p ->
  cp_case_sensitive p = false /\ cp_replace_with p = "".
Proof.
  unfold COMMON_PATTERNS. cbn [common_get].
  repeat match goal with
         | |- context [if ?b then _ else _] => destruct b
         end; intros H; inversion H; subst; split; reflexivity.
Qed.

(** X12: loading a built-in pattern, whichever it is, overwrites the
    options of the session: the search becomes case-insensitive,
    multiline and dotall are switched off and the replacement text is
    emptied, so the pattern is compiled with IGNORECASE alone; the editor
    text, the undo snapshot and the color are kept. The placeholder
    choice changes nothing. *)
Theorem load_common_pattern_resets (choice : string) (p : common_pattern)
  (a : app_state)
  (Hchoice : choice <> placeholder_choice)
  (Hentry : common_get choice COMMON_PATTERNS = Some p) :
  load_common_pattern re_compile placeholder_choice a = Some a
  /\ exists a',
       load_common_pattern re_compile choice a = Some a'
       /\ pattern_input (session a') = cp_pattern p
       /\ replace_with_input (session a') = ""
       /\ compile_flags (case_sensitive_input (session a'))
            (multiline_input (session a')) (dotall_input (session a'))
          = IGNORECASE
       /\ color_input (session a') = color_input (session a)
       /\ editor_content (session a') = editor_content (session a)
       /\ last_editor_content (session a')
          = last_editor_content (session a)
       /\ patterns a' = patterns a.
Proof.
  split; [reflexivity|].
  unfold load_common_pattern. apply String.eqb_neq in Hchoice.
  rewrite Hchoice, Hentry. cbn [negb].
  destruct (common_patterns_defaults choice Hentry) as [Hcs Hrw].
  eexists. split; [reflexivity|].
  cbn [with_session notify session patterns].
  match goal with
  | |- context [live_highlight re_compile ?s] =>
      destruct (live_highlight_frame re_compile s)
        as (Hp & Hc & Hml & Hda & Hcol & Hr & Hed & Hlast)
  end.
  rewrite Hp, Hc, Hml, Hda, Hcol, Hr, Hed, Hlast.
  cbn [with_settings pattern_input case_sensitive_input multiline_input
         dotall_input color_input replace_with_input editor_content
         last_editor_content].
  rewrite Hcs, Hrw. repeat split.
Qed.

(** *** Saved patterns are found by their label *)

Lemma index_of_first (sel : string) (before after : list string) :
  ~ In sel before ->
  index_of sel (before ++ sel :: after) = Some (List.length before).
Proof.
  induction before as [|o before IH]; intros Hnot; cbn [index_of app].
  - rewrite String.eqb_refl. reflexivity.
  - assert (Hne : (sel =? o) = false).
    { apply String.eqb_neq. intros ->. apply Hnot. left. reflexivity. }
    rewrite Hne, IH; [reflexivity|].
    intros Hin. apply Hnot. right. exact Hin.
Qed.

Lemma index_of_absent (sel : string) (options : list string) :
  ~ In sel options -> index_of sel options = None.
Proof.
  induction options as [|o options IH]; intros Hnot; cbn [index_of];
    [reflexivity|].
  assert (Hne : (sel =? o) = false).
  { apply String.eqb_neq. intros ->. apply Hnot. left. reflexivity. }
  rewrite Hne, IH; [reflexivity|].
  intros Hin. apply Hnot. right. exact Hin.
Qed.

Lemma labels_first (before after : list saved_pattern) (p : saved_pattern) :
  (forall q, In q before -> option_label q <> option_label p) ->
  index_of (option_label p) (map option_label (before ++ p :: after))
  = Some (List.length before).
Proof.
  intros Hfresh. rewrite map_app. cbn [map].
  rewrite <- (length_map option_label before).
  apply index_of_first. intros Hin. apply in_map_iff in Hin.
  destruct Hin as (q & Hq & Hin). exact (Hfresh q Hin Hq).
Qed.

Lemma nth_error_middle {A : Type} (before after : list A) (x : A) :
  nth_error (before ++ x :: after) (List.length before) = Some x.
Proof. induction before as [|y before IH]; [reflexivity|exact IH]. Qed.

Lemma remove_at_middle {A : Type} (before after : list A) (x : A) :
  remove_at (List.length before) (before ++ x :: after) = (before ++ after)%list.
Proof.
  induction before as [|y before IH]; [reflexivity|].
  cbn [remove_at app List.length]. rewrite IH. reflexivity.
Qed.

Lemma option_label_not_empty (p : saved_pattern) :
  (option_label p =? "") = false.
Proof.
  apply String.eqb_neq. unfold option_label.
  destruct (get (p_name p) "unnamed"); discriminate.
Qed.

(** The session after [load_saved_pattern] found the pattern [p]. *)
Lemma load_saved_pattern_found (a : app_state)
  (before after : list saved_pattern) (p : saved_pattern) :
  patterns a = (before ++ p :: after)%list ->
  (forall q, In q before -> option_label q <> option_label p) ->
  let r := load_saved_pattern re_compile (Some (option_label p)) a in
  pattern_input (session r) = get (p_pattern p) ""
  /\ case_sensitive_input (session r) = get (p_case_sensitive p) false
  /\ multiline_input (session r) = get (p_multiline p) false
  /\ dotall_input (session r) = get (p_dotall p) false
  /\ color_input (session r) = get (p_color p) "yellow"
  /\ replace_with_input (session r) = get (p_replace_with p) ""
  /\ pattern_name r = get (p_name p) ""
  /\ editor_content (session r) = editor_content (session a)
  /\ patterns r = patterns a.
Proof.
  intros Hpatterns Hfresh r. unfold r, load_saved_pattern.
  rewrite option_label_not_empty, Hpatterns,
    (@labels_first before after p Hfresh), nth_error_middle.
  cbn [with_session with_pattern_name notify session patterns pattern_name].
  match goal with
  | |- context [live_highlight re_compile ?s] =>
      destruct (live_highlight_frame re_compile s)
        as (Hp & Hc & Hml & Hda & Hcol & Hr & Hed & _)
  end.
  rewrite Hp, Hc, Hml, Hda, Hcol, Hr, Hed. repeat split; try assumption.
Qed.

(** X13: a saved pattern is found by its label
    [name | CS/CI | pattern], and the first pattern with the selected
    label is the one that is loaded: its pattern, options, color,
    replacement and name are written to the session (with the defaults
    for missing keys), the editor text and the list stay as they are. A
    later pattern with the same label can never be loaded. *)
Theorem load_saved_pattern_first (a : app_state)
  (before after : list saved_pattern) (p : saved_pattern)
  (Hpatterns : patterns a = (before ++ p :: after)%list)
  (Hfirst : forall q, In q before -> option_label q <> option_label p) :
  let r := load_saved_pattern re_compile (Some (option_label p)) a in
  pattern_input (session r) = get (p_pattern p) ""
  /\ case_sensitive_input (session r) = get (p_case_sensitive p) false
  /\ multiline_input (session r) = get (p_multiline p) false
  /\ dotall_input (session r) = get (p_dotall p) false
  /\ color_input (session r) = get (p_color p) "yellow"
  /\ replace_with_input (session r) = get (p_replace_with p) ""
  /\ pattern_name r = get (p_name p) ""
  /\ editor_content (session r) = editor_content (session a)
  /\ patterns r = patterns a.
Proof. exact (@load_saved_pattern_found a before after p Hpatterns Hfirst). Qed.

(** A selection that is no label, or none at all, loads nothing. *)
Lemma load_saved_pattern_unknown (a : app_state) (sel : string) :
  ~ In sel (map option_label (patterns a)) ->
  load_saved_pattern re_compile (Some sel) a = a
  /\ load_saved_pattern re_compile None a = a.
Proof.
  intros Hnot. split; [|reflexivity]. unfold load_saved_pattern.
  destruct (sel =? ""); [reflexivity|].
  rewrite (@index_of_absent sel _ Hnot). reflexivity.
Qed.

(** X14: saving and loading round-trip. The Save button appends one
    pattern and hands the new list to [save_patterns_file]; when no
    pattern saved before has the same label, selecting the new label
    later, whatever the session holds by then, brings back the pattern,
    the three options, the color and the replacement as they were
    saved. *)
Theorem save_then_load (a : app_state)
  (Hpattern : pattern_input (session a) <> "") :
  exists p,
    patterns (save_pattern a) = (patterns a ++ [p])%list
    /\ p_pattern p = Some (pattern_input (session a))
    /\ (exists rest,
          notices (save_pattern a)
          = (notices a ++ CallSavePatternsFile (patterns a ++ [p]) :: rest)%list)
    /\ forall b,
         patterns b = patterns (save_pattern a) ->
         (forall q, In q (patterns a) -> option_label q <> option_label p) ->
         let r := load_saved_pattern re_compile (Some (option_label p)) b in
         pattern_input (session r) = pattern_input (session a)
         /\ case_sensitive_input (session r)
            = case_sensitive_input (session a)
         /\ multiline_input (session r) = multiline_input (session a)
         /\ dotall_input (session r) = dotall_input (session a)
         /\ color_input (session r) = color_input (session a)
         /\ replace_with_input (session r) = replace_with_input (session a).
Proof.
  unfold save_pattern. apply String.eqb_neq in Hpattern. rewrite Hpattern.
  eexists. split; [reflexivity|]. split; [reflexivity|]. split.
  - eexists. cbn [notify with_patterns notices]. rewrite <- app_assoc.
    reflexivity.
  - intros b Hb Hfresh. cbv zeta.
    cbn [notify with_patterns patterns] in Hb.
    destruct (@load_saved_pattern_found b (patterns a) [] _ Hb Hfresh)
      as (Hp & Hcs & Hml & Hda & Hcol & Hrw & _).
    repeat split; assumption.
Qed.

(** X15: the Delete button removes exactly the first pattern that
    carries the selected label, keeps the others in their order, hands
    the shortened list to [save_patterns_file] and leaves the session
    alone. *)
Theorem delete_pattern_first (a : app_state)
  (before after : list saved_pattern) (p : saved_pattern)
  (Hpatterns : patterns a = (before ++ p :: after)%list)
  (Hfirst : forall q, In q before -> option_label q <> option_label p) :
  exists a',
    delete_pattern (Some (option_label p)) a = Some a'
    /\ patterns a' = (before ++ after)%list
    /\ session a' = session a
    /\ notices a'
       = (notices a
          ++ [ CallSavePatternsFile (before ++ after);
               ToastDeleted (get (p_name p) "unnamed") ])%list.
Proof.
  unfold delete_pattern.
  rewrite option_label_not_empty, Hpatterns,
    (@labels_first before after p Hfirst), nth_error_middle, remove_at_middle.
  eexists. split; [reflexivity|].
  cbn [notify with_patterns patterns session notices].
  rewrite <- app_assoc. repeat split.
Qed.

End PatternLibraryFacts.

Section PatternLibraryWitnesses.
Import PyStr PyMore Regex Session PatternLibrary.

Lemma load_common_pattern_resets_witness :
  let a := {| session := with_settings "x" true true true "red" "y"
                           (with_inputs "" "mail a@b.cd" initial_state);
              patterns := []; pattern_name := ""; notices := [] |} in
  exists a',
    load_common_pattern LiteralEngine.compile "Email Address" a = Some a'
    /\ pattern_input (session a') = "[\w\.\-]+@[\w\.\-]+\.\w+"
    /\ replace_with_input (session a') = "".
Proof.
  cbv zeta.
  destruct (@load_common_pattern_resets LiteralEngine.compile "Email Address"
              {| cp_pattern := "[\w\.\-]+@[\w\.\-]+\.\w+";
                 cp_case_sensitive := false; cp_replace_with := "" |}
              {| session := with_settings "x" true true true "red" "y"
                              (with_inputs "" "mail a@b.cd" initial_state);
                 patterns := []; pattern_name := ""; notices := [] |})
    as (_ & a' & Hload & Hp & Hrw & _).
  - discriminate.
  - reflexivity.
  - exists a'. repeat split; assumption.
Defined.

Lemma load_saved_pattern_first_witness :
  let p1 := {| p_name := Some "a"; p_pattern := Some "x";
               p_case_sensitive := Some false; p_multiline := None;
               p_dotall := None; p_color := Some "red";
               p_replace_with := None |} in
  let p2 := {| p_name := Some "a"; p_pattern := Some "x";
               p_case_sensitive := Some false; p_multiline := Some true;
               p_dotall := None; p_color := Some "blue";
               p_replace_with := None |} in
  let a := {| session := initial_state; patterns := [p1; p2];
              pattern_name := ""; notices := [] |} in
  color_input
    (session (load_saved_pattern LiteralEngine.compile (Some "a | CI | x") a))
  = "red".
Proof.
  cbv zeta.
  refine (proj1 (proj2 (proj2 (proj2 (proj2
            (@load_saved_pattern_first LiteralEngine.compile
               {| session := initial_state;
                  patterns :=
                    [ {| p_name := Some "a"; p_pattern := Some "x";
                         p_case_sensitive := Some false; p_multiline := None;
                         p_dotall := None; p_color := Some "red";
                         p_replace_with := None |};
                      {| p_name := Some "a"; p_pattern := Some "x";
                         p_case_sensitive := Some false;
                         p_multiline := Some true;
                         p_dotall := None; p_color := Some "blue";
                         p_replace_with := None |} ];
                  pattern_name := ""; notices := [] |}
               [] _ _ eq_refl _)))))).
  intros q [].
Defined.

Lemma save_then_load_witness :
  let a := {| session := with_settings "\d+" true false true "cyan" "#"
                           initial_state;
              patterns := []; pattern_name := "digits"; notices := [] |} in
  let b := with_session initial_state (save_pattern a) in
  let r := load_saved_pattern LiteralEngine.compile
             (Some "digits | CS | \d+") b in
  pattern_input (session r) = "\d+"
  /\ case_sensitive_input (session r) = true
  /\ dotall_input (session r) = true
  /\ color_input (session r) = "cyan".
Proof.
  cbv zeta.
  destruct (@save_then_load LiteralEngine.compile
              {| session := with_settings "\d+" true false true "cyan" "#"
                              initial_state;
                 patterns := []; pattern_name := "digits"; notices := [] |})
    as (p & Hp & _ & _ & Hload).
  - discriminate.
  - cbn in Hp. injection Hp as Hp. subst p.
    destruct (Hload (with_session initial_state
                       (save_pattern
                          {| session := with_settings "\d+" true false true
                                          "cyan" "#" initial_state;
                             patterns := []; pattern_name := "digits";
                             notices := [] |}))
                eq_refl (fun q H => match H with end))
      as (H1 & H2 & _ & H4 & H5 & _).
    repeat split; assumption.
Defined.

Lemma delete_pattern_first_witness :
  let p1 := {| p_name := Some "a"; p_pattern := Some "x";
               p_case_sensitive := Some false; p_multiline := None;
               p_dotall := None; p_color := Some "red";
               p_replace_with := None |} in
  let p2 := {| p_name := Some "a"; p_pattern := Some "x";
               p_case_sensitive := Some false; p_multiline := Some true;
               p_dotall := None; p_color := Some "blue";
               p_replace_with := None |} in
  let a := {| session := initial_state; patterns := [p1; p2];
              pattern_name := ""; notices := [] |} in
  exists a', delete_pattern (Some "a | CI | x") a = Some a'
             /\ patterns a' = [p2].
Proof.
  cbv zeta.
  destruct (@delete_pattern_first
              {| session := initial_state;
                 patterns :=
                   [ {| p_name := Some "a"; p_pattern := Some "x";
                        p_case_sensitive := Some false; p_multiline := None;
                        p_dotall := None; p_color := Some "red";
                        p_replace_with := None |};
                     {| p_name := Some "a"; p_pattern := Some "x";
                        p_case_sensitive := Some false;
                        p_multiline := Some true;
                        p_dotall := None; p_color := Some "blue";
                        p_replace_with := None |} ];
                 pattern_name := ""; notices := [] |}
              [] _ _ eq_refl) as (a' & Hdel & Hpats & _).
  - intros q [].
  - exists a'. split; assumption.
Defined.

End PatternLibraryWitnesses.

(** ** Saving the editor text and its backup *)

Section FilesFacts.
Import PyStr PyMore Files.

Lemma substring_prefix (a b : string) :
  substring 0 (String.length a) (a ++ b) = a.
Proof.
  induction a as [|c a IH]; simpl.
  - destruct b; reflexivity.
  - rewrite IH. reflexivity.
Qed.

Lemma slice_from_suffix (a b : string) :
  slice_from (String.length a) (a ++ b) = b.
Proof. induction a as [|c a IH]; simpl; [apply slice_from_0|exact IH]. Qed.

(** X16: the file that a backup is restored to is found by cutting the
    [.bak] suffix off: for the backup path that a save reports this is
    the saved file itself, and a path without the suffix gives nothing. *)
Theorem original_file_of_backup (path : string) :
  original_file (path ++ ".bak") = Some path
  /\ (ends_with ".bak" path = false -> original_file path = None).
Proof.
  split.
  - unfold original_file, ends_with, drop_last.
    rewrite append_length. cbn [String.length].
    replace (String.length path + 4 - 4) with (String.length path) by lia.
    rewrite slice_from_suffix, substring_prefix.
    assert (Hle : (4 <=? String.length path + 4)%nat = true)
      by (apply Nat.leb_le; lia).
    rewrite Hle. reflexivity.
  - intros H. unfold original_file. rewrite H. reflexivity.
Qed.

(** X17: saving over an existing file never opens it for writing without
    a backup: the file is opened (and so truncated) only after
    [shutil.copy2(path, path + ".bak")] was called and did not raise;
    when that copy raises the save fails with nothing opened or written;
    a path that did not exist is never copied; and a save that succeeds
    has written the content last and reports the backup path exactly
    when the file existed. *)
Theorem save_backs_up_first (os : os_answers) (path content : string) :
  (exists_answer os path = true ->
   forall pre post,
     fst (save_editor_content_to_file os path content)
     = (pre ++ CallOpenW path :: post)%list ->
     In (CallCopy2 path (path ++ ".bak")) pre
     /\ copy2_raises os path (path ++ ".bak") = false)
  /\ (exists_answer os path = true ->
      copy2_raises os path (path ++ ".bak") = true ->
      save_editor_content_to_file os path content
      = ([CallExists path; CallCopy2 path (path ++ ".bak")], SaveFailed))
  /\ (exists_answer os path = false ->
      forall src dst,
        ~ In (CallCopy2 src dst)
            (fst (save_editor_content_to_file os path content)))
  /\ (forall backup,
        snd (save_editor_content_to_file os path content) = Saved backup ->
        backup = (if exists_answer os path
                  then Some (path ++ ".bak") else None)
        /\ exists pre,
             fst (save_editor_content_to_file os path content)
             = (pre ++ [CallOpenW path; CallWrite path content])%list).
Proof.
  unfold save_editor_content_to_file, write_file.
  split; [|split; [|split]].
  - intros Hex pre post H. rewrite Hex in H.
    destruct (copy2_raises os path (path ++ ".bak")) eqn:Hcopy.
    + cbn [fst] in H. exfalso.
      destruct pre as [|c1 pre]; [discriminate H|].
      destruct pre as [|c2 pre]; [discriminate H|].
      destruct pre as [|c3 pre]; discriminate H.
    + split; [|reflexivity].
      destruct (open_raises os path);
        [|destruct (write_raises os path content)];
        cbn [fst app] in H;
        (destruct pre as [|c1 pre]; [discriminate H|]);
        (destruct pre as [|c2 pre]; [discriminate H|]);
        injection H as H1 H2 H3; subst c1 c2; right; left; reflexivity.
  - intros Hex Hcopy. rewrite Hex, Hcopy. reflexivity.
  - intros Hex src dst. rewrite Hex.
    destruct (open_raises os path);
      [|destruct (write_raises os path content)];
      cbn [fst app In]; intros H;
      repeat (destruct H as [H|H]; [discriminate H|]); exact H.
  - intros backup H.
    destruct (exists_answer os path).
    + destruct (copy2_raises os path (path ++ ".bak")); [discriminate H|].
      destruct (open_raises os path); [discriminate H|].
      destruct (write_raises os path content); [discriminate H|].
      cbn [snd] in H. injection H as <-. split; [reflexivity|].
      exists [CallExists path; CallCopy2 path (path ++ ".bak")].
      reflexivity.
    + destruct (open_raises os path); [discriminate H|].
      destruct (write_raises os path content); [discriminate H|].
      cbn [snd] in H. injection H as <-. split; [reflexivity|].
      exists [CallExists path]. reflexivity.
Qed.

End FilesFacts.

(** ** The brace quantifier on every Python string *)

Section UExplainerFacts.
Import UExplainer.
Local Open Scope list_scope.

Variable is_digit : N -> bool.

(** In the ASCII range the decimal digits are '0'..'9'. *)
Hypothesis ascii_digits :
  forall c, (c < 128)%N -> is_digit c = ((48 <=? c) && (c <=? 57))%N.

Lemma comma_no_digit : is_digit (ch ",") = false.
Proof. rewrite ascii_digits; reflexivity. Qed.

Lemma close_no_digit : is_digit (ch "}") = false.
Proof. rewrite ascii_digits; reflexivity. Qed.

Lemma u_take_digits_app (m rest : ustring) :
  forallb is_digit m = true ->
  (forall c r, rest = c :: r -> is_digit c = false) ->
  take_digits is_digit (m ++ rest) = (m, rest).
Proof.
  intros Hm Hrest. induction m as [|c m IH]; cbn [take_digits app forallb] in *.
  - destruct rest as [|c r]; [reflexivity|].
    cbn [take_digits]. rewrite (Hrest c r eq_refl). reflexivity.
  - apply andb_true_iff in Hm as [Hc Hm].
    rewrite Hc, (IH Hm). reflexivity.
Qed.

Lemma u_take_digits_spec (s : ustring) :
  forall ds tl, take_digits is_digit s = (ds, tl) ->
  s = ds ++ tl /\ forallb is_digit ds = true
  /\ (forall c r, tl = c :: r -> is_digit c = false).
Proof.
  induction s as [|c s IH]; intros ds tl H; cbn [take_digits] in H.
  - inversion H; subst. repeat split. intros c r E. discriminate E.
  - destruct (is_digit c) eqn:Hc.
    + destruct (take_digits is_digit s) as [ds' tl'] eqn:Hs.
      inversion H; subst. destruct (IH _ _ eq_refl) as (-> & Hd & Ht).
      cbn [app forallb]. rewrite Hc. auto.
    + inversion H; subst. repeat split.
      intros c' r E. inversion E; subst. exact Hc.
Qed.

Lemma digits_not_empty (m : ustring) :
  digits is_digit m -> is_empty m = false.
Proof. intros [Hne _]. destruct m; [congruence|reflexivity]. Qed.

Lemma u_match_brace_exactly (m rest : ustring) :
  digits is_digit m ->
  match_brace is_digit (of_string "{" ++ m ++ of_string "}" ++ rest)
  = Some {| group0 := of_string "{" ++ m ++ of_string "}"; g1 := m;
            g2 := None; g3 := None |}.
Proof.
  intros Hm. pose proof (digits_not_empty Hm) as Hne. destruct Hm as [_ Hd].
  change (of_string "{" ++ m ++ of_string "}" ++ rest)
    with (ch "{" :: (m ++ ch "}" :: rest)).
  unfold match_brace. rewrite N.eqb_refl.
  rewrite (u_take_digits_app m (rest:=ch "}" :: rest) Hd).
  2:{ intros c r E. inversion E; subst. apply close_no_digit. }
  rewrite Hne. change (N.eqb (ch "}") (ch ",")) with false. cbv iota.
  cbn [take_digits]. rewrite close_no_digit. cbn [is_empty].
  rewrite N.eqb_refl. reflexivity.
Qed.

Lemma u_match_brace_at_least (m rest : ustring) :
  digits is_digit m ->
  match_brace is_digit (of_string "{" ++ m ++ of_string ",}" ++ rest)
  = Some {| group0 := of_string "{" ++ m ++ of_string ",}"; g1 := m;
            g2 := Some (of_string ","); g3 := None |}.
Proof.
  intros Hm. pose proof (digits_not_empty Hm) as Hne. destruct Hm as [_ Hd].
  change (of_string "{" ++ m ++ of_string ",}" ++ rest)
    with (ch "{" :: (m ++ ch "," :: ch "}" :: rest)).
  unfold match_brace. rewrite N.eqb_refl.
  rewrite (u_take_digits_app m (rest:=ch "," :: ch "}" :: rest) Hd).
  2:{ intros c r E. inversion E; subst. apply comma_no_digit. }
  rewrite Hne, N.eqb_refl.
  cbn [take_digits]. rewrite close_no_digit. cbn [is_empty].
  rewrite N.eqb_refl. reflexivity.
Qed.

Lemma u_match_brace_between (m n rest : ustring) :
  digits is_digit m -> digits is_digit n ->
  match_brace is_digit
    (of_string "{" ++ m ++ of_string "," ++ n ++ of_string "}" ++ rest)
  = Some {| group0 := of_string "{" ++ m ++ of_string "," ++ n
                        ++ of_string "}";
            g1 := m; g2 := Some (of_string ","); g3 := Some n |}.
Proof.
  intros Hm Hn. pose proof (digits_not_empty Hm) as Hne.
  pose proof (digits_not_empty Hn) as Hne'.
  destruct Hm as [_ Hd]. destruct Hn as [_ Hd'].
  change (of_string "{" ++ m ++ of_string "," ++ n ++ of_string "}" ++ rest)
    with (ch "{" :: (m ++ ch "," :: (n ++ ch "}" :: rest))).
  unfold match_brace. rewrite N.eqb_refl.
  rewrite (u_take_digits_app m (rest:=ch "," :: (n ++ ch "}" :: rest)) Hd).
  2:{ intros c r E. inversion E; subst. apply comma_no_digit. }
  rewrite Hne, N.eqb_refl.
  rewrite (u_take_digits_app n (rest:=ch "}" :: rest) Hd').
  2:{ intros c r E. inversion E; subst. apply close_no_digit. }
  rewrite Hne', N.eqb_refl. reflexivity.
Qed.

(** Whenever the brace pattern matches, the string has one of the three
    shapes and starts with the matched text. *)
Lemma u_match_brace_sound (s : ustring) (bm : brace_match) :
  match_brace is_digit s = Some bm ->
  brace_shape is_digit s
  /\ 0 < List.length (group0 bm)
  /\ exists rest, s = group0 bm ++ rest.
Proof.
  unfold match_brace. destruct s as [|c0 r0]; [discriminate|].
  destruct (N.eqb c0 (ch "{")) eqn:Hc0; [|discriminate].
  apply N.eqb_eq in Hc0. subst c0.
  destruct (take_digits is_digit r0) as [d1 r1] eqn:H1.
  destruct (u_take_digits_spec _ H1) as (-> & Hd1 & Hs1).
  destruct (is_empty d1) eqn:Hne1; [discriminate|].
  assert (Hd1' : digits is_digit d1).
  { split; [|exact Hd1]. intros ->. discriminate Hne1. }
  assert (Hcomma : forall c2 r2,
    match r1 with
    | c :: r => if N.eqb c (ch ",") then (Some [c], r) else (None, r1)
    | [] => (None, r1)
    end = (c2, r2) ->
    r1 = opt_str c2 ++ r2 /\ (c2 = None \/ c2 = Some (of_string ","))
    /\ (c2 = None -> forall c r, r2 = c :: r -> is_digit c = false)).
  { intros c2 r2 H. destruct r1 as [|x r]; [inversion H; subst; auto|].
    destruct (N.eqb x (ch ",")) eqn:Hx.
    - apply N.eqb_eq in Hx. subst x. inversion H; subst.
      repeat split; auto. discriminate.
    - inversion H; subst. repeat split; auto. }
  destruct (match r1 with
            | c :: r => if N.eqb c (ch ",") then (Some [c], r) else (None, r1)
            | [] => (None, r1)
            end) as [c2 r2].
  destruct (Hcomma _ _ eq_refl) as (-> & Hc2 & Hnd). clear Hcomma.
  destruct (take_digits is_digit r2) as [d3 r3] eqn:H3.
  destruct (u_take_digits_spec _ H3) as (-> & Hd3 & Hs3).
  destruct r3 as [|c3 r4]; [discriminate|].
  destruct (N.eqb c3 (ch "}")) eqn:Hc3; [|discriminate].
  apply N.eqb_eq in Hc3. subst c3.
  intros H. inversion H; subst; clear H. cbn [group0].
  assert (Hopt : opt_str (if is_empty d3 then None else Some d3) = d3).
  { destruct d3; reflexivity. }
  rewrite Hopt.
  split; [|split].
  - destruct Hc2 as [-> | ->]; cbn [opt_str].
    + assert (d3 = []) as ->.
      { destruct d3 as [|x d3]; [reflexivity|].
        cbn [forallb] in Hd3. apply andb_true_iff in Hd3 as [Hx _].
        rewrite (Hnd eq_refl x (d3 ++ ch "}" :: r4) eq_refl) in Hx.
        discriminate Hx. }
      apply (shape_exactly (m:=d1) r4 Hd1').
    + destruct d3 as [|x d3].
      * apply (shape_at_least (m:=d1) r4 Hd1').
      * apply (shape_between (m:=d1) (n:=x :: d3) r4 Hd1').
        split; [discriminate|exact Hd3].
  - cbn [of_string app List.length]. lia.
  - exists r4. cbn [of_string app]. f_equal.
    rewrite <- !app_assoc. reflexivity.
Qed.

Lemma u_match_brace_none (s : ustring) :
  ~ brace_shape is_digit s -> match_brace is_digit s = None.
Proof.
  intros H. destruct (match_brace is_digit s) as [bm|] eqn:Hm; [|reflexivity].
  exfalso. apply H. eapply u_match_brace_sound; eauto.
Qed.

Lemma u_char_at_slice_from (s : ustring) (i : nat) (c : N) (r : ustring) :
  slice_from i s = c :: r -> char_at s i = [c].
Proof. unfold slice_from, char_at. intros ->. reflexivity. Qed.

Lemma u_explain_step_brace (pattern : ustring) (i : nat) :
  char_at pattern i = of_string "{" ->
  explain_step is_digit pattern i =
  match match_brace is_digit (slice_from i pattern) with
  | Some m => (quantifier_desc m, i + List.length (group0 m))
  | None => (literal_desc (of_string "{"), i + 1)
  end.
Proof.
  intros Hc. unfold explain_step. rewrite Hc.
  change (ueqb (of_string "{") (of_string "\")) with false. cbn [andb].
  unfold explain_single.
  change (dict_mem token_map (of_string "{")) with false.
  change (in_chars (of_string "{") (of_string "*+?")) with false.
  change (ueqb (of_string "{") (of_string "{")) with true. cbv iota.
  destruct (match_brace is_digit (slice_from i pattern)); reflexivity.
Qed.

Lemma u_explain_loop_while (pattern : ustring) (i : nat)
  (acc : list ustring) :
  explain_loop is_digit pattern i acc =
  if (i <? List.length pattern)%nat
  then explain_loop is_digit pattern (snd (explain_step is_digit pattern i))
         (acc ++ [fst (explain_step is_digit pattern i)])
  else acc.
Proof.
  rewrite explain_loop_equation_1.
  destruct (lt_dec i (List.length pattern)) as [Hlt|Hge].
  - rewrite explain_loop_clause_1_equation_1.
    assert (E : (i <? List.length pattern)%nat = true)
      by (apply Nat.ltb_lt; exact Hlt).
    rewrite E. reflexivity.
  - assert (E : (i <? List.length pattern)%nat = false)
      by (apply Nat.ltb_ge; lia).
    rewrite E. reflexivity.
Qed.

(** C4: on every Python string, whatever the script of its digits: at
    a position where the pattern continues with [{m}], [{m,}] or [{m,n}]
    (runs of characters that [\d] matches) one iteration emits the one
    quantifier description of that shape and moves the cursor past the
    whole braced substring; at a brace that opens none of the three
    shapes it describes the brace alone as a literal and moves by one;
    and ["a{2,5}"] is explained as the literal [a] followed by one
    "between 2 and 5 times" quantifier. *)
Theorem brace_quantifier_unicode (pattern : ustring) (i : nat) :
  (forall m rest, digits is_digit m ->
     slice_from i pattern = of_string "{" ++ m ++ of_string "}" ++ rest ->
     explain_step is_digit pattern i =
     (of_string "- **Quantifier** (`" ++ (of_string "{" ++ m ++ of_string "}")
        ++ of_string "`): The preceding element must occur "
        ++ (of_string "exactly " ++ m ++ of_string " times") ++ of_string ".",
      i + List.length (of_string "{" ++ m ++ of_string "}")))
  /\ (forall m rest, digits is_digit m ->
        slice_from i pattern = of_string "{" ++ m ++ of_string ",}" ++ rest ->
        explain_step is_digit pattern i =
        (of_string "- **Quantifier** (`"
           ++ (of_string "{" ++ m ++ of_string ",}")
           ++ of_string "`): The preceding element must occur "
           ++ (of_string "at least " ++ m ++ of_string " times")
           ++ of_string ".",
         i + List.length (of_string "{" ++ m ++ of_string ",}")))
  /\ (forall m n rest, digits is_digit m -> digits is_digit n ->
        slice_from i pattern
        = of_string "{" ++ m ++ of_string "," ++ n ++ of_string "}" ++ rest ->
        explain_step is_digit pattern i =
        (of_string "- **Quantifier** (`"
           ++ (of_string "{" ++ m ++ of_string "," ++ n ++ of_string "}")
           ++ of_string "`): The preceding element must occur "
           ++ (of_string "between " ++ m ++ of_string " and " ++ n
                 ++ of_string " times")
           ++ of_string ".",
         i + List.length
               (of_string "{" ++ m ++ of_string "," ++ n ++ of_string "}")))
  /\ (char_at pattern i = of_string "{" ->
      ~ brace_shape is_digit (slice_from i pattern) ->
      explain_step is_digit pattern i = (literal_desc (of_string "{"), i + 1))
  /\ explain_regex is_digit (of_string "a{2,5}") =
     [ literal_desc (of_string "a");
       of_string "- **Quantifier** (`{2,5}`): The preceding element must occur between 2 and 5 times." ].
Proof.
  assert (Hbetween : forall p j m n rest,
    digits is_digit m -> digits is_digit n ->
    slice_from j p
    = of_string "{" ++ m ++ of_string "," ++ n ++ of_string "}" ++ rest ->
    explain_step is_digit p j =
    (of_string "- **Quantifier** (`"
       ++ (of_string "{" ++ m ++ of_string "," ++ n ++ of_string "}")
       ++ of_string "`): The preceding element must occur "
       ++ (of_string "between " ++ m ++ of_string " and " ++ n
             ++ of_string " times")
       ++ of_string ".",
     j + List.length
           (of_string "{" ++ m ++ of_string "," ++ n ++ of_string "}"))).
  { intros p j m n rest Hm Hn Hs.
    rewrite (u_explain_step_brace p j
               (u_char_at_slice_from p j (r:=_) Hs)).
    rewrite Hs, (u_match_brace_between rest Hm Hn). reflexivity. }
  split; [|split; [|split; [|split]]].
  - intros m rest Hm Hs.
    rewrite (u_explain_step_brace pattern i
               (u_char_at_slice_from pattern i (r:=_) Hs)).
    rewrite Hs, (u_match_brace_exactly rest Hm). reflexivity.
  - intros m rest Hm Hs.
    rewrite (u_explain_step_brace pattern i
               (u_char_at_slice_from pattern i (r:=_) Hs)).
    rewrite Hs, (u_match_brace_at_least rest Hm). reflexivity.
  - apply Hbetween.
  - intros Hc Hshape.
    rewrite (u_explain_step_brace pattern i Hc), (u_match_brace_none Hshape).
    reflexivity.
  - assert (H2 : digits is_digit (of_string "2")).
    { split; [discriminate|]. cbn [of_string forallb].
      rewrite ascii_digits; reflexivity. }
    assert (H5 : digits is_digit (of_string "5")).
    { split; [discriminate|]. cbn [of_string forallb].
      rewrite ascii_digits; reflexivity. }
    unfold explain_regex.
    rewrite u_explain_loop_while.
    change (0 <? List.length (of_string "a{2,5}"))%nat with true. cbv iota.
    change (explain_step is_digit (of_string "a{2,5}") 0)
      with (literal_desc (of_string "a"), 1).
    cbn [fst snd app].
    rewrite u_explain_loop_while.
    change (1 <? List.length (of_string "a{2,5}"))%nat with true. cbv iota.
    rewrite (Hbetween (of_string "a{2,5}") 1 (of_string "2") (of_string "5")
               [] H2 H5 eq_refl).
    cbn [fst snd].
    rewrite u_explain_loop_while.
    change (1 + List.length
                  (of_string "{" ++ of_string "2" ++ of_string ","
                     ++ of_string "5" ++ of_string "}")
            <? List.length (of_string "a{2,5}"))%nat with false.
    reflexivity.
Qed.

End UExplainerFacts.

Section UExplainerWitness.
Import UExplainer.
Local Open Scope list_scope.

Lemma sample_digit_ascii (c : N) :
  (c < 128)%N -> sample_digit c = ((48 <=? c) && (c <=? 57))%N.
Proof.
  intros Hc. unfold sample_digit.
  assert (E : (1632 <=? c)%N = false) by (apply N.leb_gt; lia).
  rewrite E. cbn [andb]. apply orb_false_r.
Qed.

(** The brace quantifier with an Arabic-Indic digit, ["a{٣}"]. *)
Lemma brace_quantifier_unicode_witness :
  explain_step sample_digit [97; 123; 1635; 125]%N 1
  = (of_string "- **Quantifier** (`" ++ [123; 1635; 125]%N
       ++ of_string "`): The preceding element must occur "
       ++ (of_string "exactly " ++ [1635]%N ++ of_string " times")
       ++ of_string ".",
     4).
Proof.
  refine (proj1 (@brace_quantifier_unicode sample_digit sample_digit_ascii
                   [97; 123; 1635; 125]%N 1)
            [1635]%N [] _ eq_refl).
  split; [discriminate|reflexivity].
Defined.

End UExplainerWitness.

(** ** The explainer of [Explainer] is the one of [UExplainer] on the
       patterns below code point 256 *)

Section ExplainerRestriction.
Import UExplainer.
Local Open Scope list_scope.

Variable is_digit : N -> bool.

(** Below code point 256 the decimal digits are '0'..'9'. *)
Hypothesis latin_digits :
  forall c : ascii, is_digit (ch c) = Explainer.is_digit c.

Lemma of_string_app (a b : string) :
  of_string (a ++ b)%string = of_string a ++ of_string b.
Proof. induction a as [|c a IH]; simpl; [reflexivity|]. rewrite IH. reflexivity. Qed.

Lemma of_string_length (s : string) :
  List.length (of_string s) = String.length s.
Proof. induction s; simpl; congruence. Qed.

Lemma ch_eqb (a b : ascii) : N.eqb (ch a) (ch b) = Ascii.eqb a b.
Proof.
  destruct (Ascii.eqb a b) eqn:E.
  - apply Ascii.eqb_eq in E. subst. apply N.eqb_refl.
  - apply N.eqb_neq. intros H. apply Ascii.eqb_neq in E. apply E.
    unfold ch in H.
    rewrite <- (ascii_N_embedding a), <- (ascii_N_embedding b), H.
    reflexivity.
Qed.

Lemma of_string_eqb (a b : string) :
  ueqb (of_string a) (of_string b) = String.eqb a b.
Proof.
  revert b. induction a as [|x a IH]; intros [|y b]; simpl; try reflexivity.
  rewrite ch_eqb, IH. destruct (Ascii.eqb x y); reflexivity.
Qed.

Lemma of_string_substring (s : string) : forall n m,
  of_string (substring n m s) = firstn m (skipn n (of_string s)).
Proof.
  induction s as [|c s IH]; intros n m.
  - destruct n, m; reflexivity.
  - destruct n as [|n].
    + destruct m as [|m]; simpl; [reflexivity|].
      f_equal. apply (IH 0 m).
    + simpl. apply IH.
Qed.

Lemma of_string_slice (s : string) (a b : nat) :
  slice a b (of_string s) = of_string (PyStr.slice a b s).
Proof. unfold slice, PyStr.slice. symmetry. apply of_string_substring. Qed.

Lemma of_string_char_at (s : string) (i : nat) :
  char_at (of_string s) i = of_string (PyStr.char_at s i).
Proof. unfold char_at, PyStr.char_at. symmetry. apply of_string_substring. Qed.

Lemma of_string_slice_from (s : string) : forall i,
  slice_from i (of_string s) = of_string (PyStr.slice_from i s).
Proof.
  unfold slice_from.
  induction s as [|c s IH]; intros [|i]; simpl; try reflexivity. apply IH.
Qed.

Lemma of_dict_get (d : PyStr.dict) (key : string) :
  dict_get (of_dict d) (of_string key)
  = option_map of_string (PyStr.dict_get d key).
Proof.
  induction d as [|[k v] d IH]; simpl; [reflexivity|].
  rewrite of_string_eqb. destruct (String.eqb key k); [reflexivity|exact IH].
Qed.

Lemma of_dict_mem (d : PyStr.dict) (key : string) :
  dict_mem (of_dict d) (of_string key) = PyStr.dict_mem d key.
Proof.
  unfold dict_mem, PyStr.dict_mem. rewrite of_dict_get.
  destruct (PyStr.dict_get d key); reflexivity.
Qed.

Lemma of_dict_index (d : PyStr.dict) (key : string) :
  dict_index (of_dict d) (of_string key) = of_string (PyStr.dict_index d key).
Proof.
  unfold dict_index, PyStr.dict_index. rewrite of_dict_get.
  destruct (PyStr.dict_get d key); reflexivity.
Qed.

Lemma of_string_in_chars (c chars : string) :
  in_chars (of_string c) (of_string chars) = PyStr.in_chars c chars.
Proof.
  induction chars as [|x chars IH]; simpl; [reflexivity|].
  rewrite <- IH.
  change [ch x] with (of_string (String x "")). rewrite of_string_eqb.
  reflexivity.
Qed.

Lemma of_string_take_digits (s : string) :
  take_digits is_digit (of_string s)
  = (of_string (fst (Explainer.take_digits s)),
     of_string (snd (Explainer.take_digits s))).
Proof.
  induction s as [|c s IH]; [reflexivity|].
  cbn [of_string take_digits Explainer.take_digits].
  rewrite latin_digits. destruct (Explainer.is_digit c); [|reflexivity].
  rewrite IH. destruct (Explainer.take_digits s); reflexivity.
Qed.

Lemma of_string_is_empty (d : string) :
  is_empty (of_string d) = (d =? "")%string.
Proof. destruct d; reflexivity. Qed.

Lemma of_string_match_brace (s : string) :
  match_brace is_digit (of_string s)
  = option_map of_brace_match (Explainer.match_brace s).
Proof.
  destruct s as [|c r0]; [reflexivity|].
  cbn [of_string]. unfold match_brace, Explainer.match_brace.
  rewrite ch_eqb. destruct (Ascii.eqb c "{") eqn:Hc.
  2:{ revert Hc. clear.
      destruct c as [[] [] [] [] [] [] [] []]; intros Hc;
        try reflexivity; discriminate Hc. }
  apply Ascii.eqb_eq in Hc. subst c. cbv iota.
  rewrite of_string_take_digits.
  destruct (Explainer.take_digits r0) as [d1 r1]. cbn [fst snd].
  rewrite of_string_is_empty. destruct (d1 =? "")%string; [reflexivity|].
  assert (Hcomma :
    match of_string r1 with
    | c :: r => if N.eqb c (ch ",") then (Some [c], r) else (None, of_string r1)
    | [] => (None, of_string r1)
    end
    = (option_map of_string
         (fst match r1 with
              | String ","%char r => (Some ","%string, r)
              | _ => (None, r1)
              end),
       of_string
         (snd match r1 with
              | String ","%char r => (Some ","%string, r)
              | _ => (None, r1)
              end))).
  { destruct r1 as [|x r]; [reflexivity|]. cbn [of_string].
    rewrite ch_eqb. destruct (Ascii.eqb x ",") eqn:Hx.
    - apply Ascii.eqb_eq in Hx. subst x. reflexivity.
    - revert Hx. clear.
      destruct x as [[] [] [] [] [] [] [] []]; intros Hx;
        try reflexivity; discriminate Hx. }
  rewrite Hcomma.
  destruct (match r1 with
            | String ","%char r => (Some ","%string, r)
            | _ => (None, r1)
            end) as [c2 r2].
  cbn [fst snd]. rewrite of_string_take_digits.
  destruct (Explainer.take_digits r2) as [d3 r3]. cbn [fst snd].
  rewrite of_string_is_empty.
  destruct r3 as [|c3 r4]; [reflexivity|]. cbn [of_string].
  rewrite ch_eqb. destruct (Ascii.eqb c3 "}") eqn:Hc3.
  2:{ revert Hc3. clear.
      destruct c3 as [[] [] [] [] [] [] [] []]; intros Hc3;
        try reflexivity; discriminate Hc3. }
  apply Ascii.eqb_eq in Hc3. subst c3. cbv iota.
  unfold of_brace_match. cbn [option_map Explainer.group0 Explainer.g1
                               Explainer.g2 Explainer.g3].
  f_equal. f_equal.
  - rewrite !of_string_app.
    destruct c2, (d3 =? "")%string; reflexivity.
  - destruct (d3 =? "")%string; reflexivity.
Qed.

Lemma of_string_literal_desc (c : string) :
  of_string (Explainer.literal_desc c) = literal_desc (of_string c).
Proof.
  unfold Explainer.literal_desc, literal_desc.
  rewrite !of_string_app. reflexivity.
Qed.

Lemma of_string_escaped_literal_desc (token next : string) :
  of_string (Explainer.escaped_literal_desc token next)
  = escaped_literal_desc (of_string token) (of_string next).
Proof.
  unfold Explainer.escaped_literal_desc, escaped_literal_desc.
  rewrite !of_string_app. reflexivity.
Qed.

Lemma of_string_quantifier_desc (m : Explainer.brace_match) :
  of_string (Explainer.quantifier_desc m) = quantifier_desc (of_brace_match m).
Proof.
  unfold Explainer.quantifier_desc, quantifier_desc, Explainer.brace_desc,
    brace_desc, of_brace_match.
  cbn [group0 g1 g2 g3].
  destruct (Explainer.g2 m), (Explainer.g3 m); cbn [option_map];
    rewrite !of_string_app; reflexivity.
Qed.

Lemma restrict_rest (p : string) (i : nat) (c : string) :
  explain_rest (of_string p) i (of_string c)
  = (of_string (fst (Explainer.explain_rest p i c)),
     snd (Explainer.explain_rest p i c)).
Proof.
  unfold explain_rest, Explainer.explain_rest.
  rewrite !of_string_slice, !of_string_eqb.
  repeat match goal with
         | |- context [if ?b then _ else _] => destruct b
         end; cbn [fst snd];
    rewrite ?of_string_app, ?of_string_literal_desc; reflexivity.
Qed.

Lemma restrict_single (p : string) (i : nat) (c : string) :
  explain_single is_digit (of_string p) i (of_string c)
  = (of_string (fst (Explainer.explain_single p i c)),
     snd (Explainer.explain_single p i c)).
Proof.
  unfold explain_single, Explainer.explain_single, token_map, quantifier_map.
  rewrite of_dict_mem, !of_dict_index, of_string_in_chars, of_string_eqb,
    of_string_slice_from, of_string_match_brace.
  destruct (PyStr.dict_mem Explainer.token_map c);
    [cbn [fst snd]; rewrite of_string_app; reflexivity|].
  destruct (PyStr.in_chars c "*+?");
    [cbn [fst snd]; rewrite of_string_app; reflexivity|].
  destruct (c =? "{")%string; [|apply restrict_rest].
  destruct (Explainer.match_brace (PyStr.slice_from i p)) as [m|];
    cbn [option_map]; [|apply restrict_rest].
  cbn [fst snd]. rewrite of_string_quantifier_desc.
  unfold of_brace_match at 2. cbn [group0]. rewrite of_string_length.
  reflexivity.
Qed.

(** One iteration of the loop gives the same description and the same
    cursor in both explainers. *)
Lemma restrict_step (p : string) (i : nat) :
  explain_step is_digit (of_string p) i
  = (of_string (fst (Explainer.explain_step p i)),
     snd (Explainer.explain_step p i)).
Proof.
  unfold explain_step, Explainer.explain_step.
  rewrite !of_string_char_at, of_string_eqb, of_string_length,
    of_string_slice.
  destruct ((PyStr.char_at p i =? "\")%string
            && (i + 1 <? String.length p)%nat).
  - unfold token_map. rewrite of_dict_mem, of_dict_index.
    destruct (PyStr.dict_mem Explainer.token_map (PyStr.slice i (i + 2) p));
      cbn [fst snd].
    + rewrite of_string_app. reflexivity.
    + rewrite of_string_escaped_literal_desc. reflexivity.
  - apply restrict_single.
Qed.

Lemma restrict_loop (p : string) : forall n i acc,
  String.length p - i <= n ->
  explain_loop is_digit (of_string p) i (map of_string acc)
  = map of_string (Explainer.explain_loop p i acc).
Proof.
  induction n as [|n IH]; intros i acc Hn;
    rewrite u_explain_loop_while, explain_loop_while, of_string_length.
  - assert (Hge : (i <? String.length p)%nat = false)
      by (apply Nat.ltb_ge; lia).
    rewrite Hge. reflexivity.
  - destruct (i <? String.length p)%nat eqn:Hlt; [|reflexivity].
    apply Nat.ltb_lt in Hlt.
    pose proof (explain_step_advances p i) as Hadv.
    rewrite restrict_step. cbn [fst snd].
    rewrite <- (IH (snd (Explainer.explain_step p i))) by lia.
    rewrite map_app. reflexivity.
Qed.

(** The explainer of [Explainer] computes, on a pattern whose characters
    are all below 256, exactly what the explainer on Python strings
    computes on it. *)
Theorem explainer_restriction (pattern : string) :
  explain_regex is_digit (of_string pattern)
  = map of_string (Explainer.explain_regex pattern).
Proof.
  unfold explain_regex, Explainer.explain_regex.
  change (@nil ustring) with (map of_string []).
  rewrite (restrict_loop pattern (n:=String.length pattern) 0 [])
    by lia.
  destruct (Explainer.explain_loop pattern 0 []); reflexivity.
Qed.

End ExplainerRestriction.

(** The restriction is not empty of instances: a digit table with the
    ASCII and the Arabic-Indic digits agrees with ['0'..'9'] below code
    point 256, so the two explainers agree there. *)

Section ExplainerRestrictionSample.
Import UExplainer.
Local Open Scope list_scope.

Lemma sample_digit_latin (c : ascii) :
  sample_digit (ch c) = Explainer.is_digit c.
Proof.
  destruct c as [b0 b1 b2 b3 b4 b5 b6 b7].
  destruct b0, b1, b2, b3, b4, b5, b6, b7; reflexivity.
Qed.

Lemma explainer_restriction_sample (pattern : string) :
  explain_regex sample_digit (of_string pattern)
  = map of_string (Explainer.explain_regex pattern).
Proof. exact (@explainer_restriction sample_digit sample_digit_latin pattern). Qed.

End ExplainerRestrictionSample.
